(** * Smart-store analytics pipeline: cleaning, warehouse load, OLAP cube

    A shallow embedding of [src/analytics_project/data_prep.py],
    [src/analytics_project/etl_to_dw.py] and
    [src/analytics_project/olap/cubing.py].

    The first part of the file holds the model (one module per source file,
    preceded by the fragment of pandas the code calls); the second part holds
    the statements proved about it.

    Conventions of the model.
    - A number is the rational value of a float64 ([Qc]); the arithmetic of
      the cleaners rounds to the nearest float64.  NaN, None and NaT are the
      one missing value [NA].  Infinities, subnormal numbers and column
      dtypes are not modelled.
    - A data frame is its column list and its rows; a row carries its index
      label and a finite map from column name to value.  A cell that the map
      does not hold reads as [NA].
    - A Python exception is a value of [exn]; a function that can raise
      returns a [Result].
    - What the libraries decide and the scripts do not is a parameter of
      the model: the parsers of numbers and dates ([Parsers]), the order in
      which the quicksort of [sort_values] leaves rows with equal keys
      ([Quicksort]), the reductions that [agg] knows by name
      ([Aggregations]) and what SQLite stores for one inserted row
      ([Sqlite]).  The statements hold for every choice of them. *)

From Stdlib Require Import QArith Qcanon Qround ZArith String Ascii List.
From stdpp Require Import sorting base decidable option strings numbers gmap list.

Local Open Scope Qc_scope.
Local Open Scope string_scope.

(* ================================================================== *)
(** * Part I: the model *)
(* ================================================================== *)

(** ** The fragment of pandas used by the three scripts *)
Module Pandas.

(** A cell of a data frame. *)
Inductive value :=
  | NA                 (* NaN / None / NaT *)
  | Num (x : Qc)       (* int64 / float64 *)
  | Str (s : string)   (* object: str *)
  | Ts (t : Z).        (* datetime64[ns] *)

#[global] Instance value_eq_dec : EqDecision value.
Proof. solve_decision. Defined.
#[global] Instance value_inhabited : Inhabited value := populate NA.

(** A float scalar such as a median or a quantile: [None] is NaN. *)
Abbreviation float := (option Qc).

Inductive exn :=
  | KeyError | TypeError | ValueError | AttributeError | SpecificationError
  | ZeroDivisionError | FileNotFoundError
  | OperationalError | IntegrityError | ProgrammingError.

#[global] Instance exn_eq_dec : EqDecision exn.
Proof. solve_decision. Defined.

Inductive Result (A : Type) :=
  | Ok (a : A)
  | Raise (e : exn).
Arguments Ok {A} a.
Arguments Raise {A} e.

#[global] Instance Result_eq_dec {A} `{EqDecision A} : EqDecision (Result A).
Proof. solve_decision. Defined.

#[global] Instance Result_ret : MRet Result := @Ok.
#[global] Instance Result_bind : MBind Result :=
  λ A B f m, match m with Ok a => f a | Raise e => Raise e end.

(** What pandas' parsers accept is left to an instance: the token grammar of
    [pd.to_numeric] and the formats of [pd.to_datetime] are the library's. *)
Class Parsers := {
  parse_float : string → option Qc;        (* a numeric token, or unparseable *)
  parse_datetime : string → option Z;      (* a date string, or unparseable *)
  datetime_of_number : Qc → option Z       (* epoch offset, or out of range *)
}.

Record Row := { label : nat; cells : gmap string value }.

#[global] Instance Row_eq_dec : EqDecision Row.
Proof. solve_decision. Defined.

Record DataFrame := { columns : list string; rows : list Row }.

#[global] Instance DataFrame_eq_dec : EqDecision DataFrame.
Proof. solve_decision. Defined.

(** [df[c]] at one row, and the column as a list of values. *)
Definition cell (c : string) (r : Row) : value := default NA (cells r !! c).
Definition column (c : string) (df : DataFrame) : list value := cell c <$> rows df.
Definition labels (df : DataFrame) : list nat := label <$> rows df.

Definition set_cell (c : string) (v : value) (r : Row) : Row :=
  {| label := label r; cells := <[c := v]> (cells r) |}.

(** [df[c] = f(df[c])] for an elementwise [f] and a column [c] of [df]. *)
Definition assign (c : string) (f : value → value) (df : DataFrame) : DataFrame :=
  {| columns := columns df; rows := (λ r, set_cell c (f (cell c r)) r) <$> rows df |}.

(** [df[mask]]: boolean indexing keeps the rows where the mask holds. *)
Definition loc (mask : Row → bool) (df : DataFrame) : DataFrame :=
  {| columns := columns df; rows := filter (λ r, mask r = true) (rows df) |}.

(** [pd.to_numeric(s, errors='coerce')], elementwise. *)
Definition to_numeric `{Parsers} (v : value) : value :=
  match v with
  | NA => NA
  | Num x => Num x
  | Str s => match parse_float s with Some x => Num x | None => NA end
  | Ts t => Num (Qc_of_Z t)
  end.

(** [pd.to_datetime(s, errors='coerce')], elementwise. *)
Definition to_datetime `{Parsers} (v : value) : value :=
  match v with
  | NA => NA
  | Ts t => Ts t
  | Str s => match parse_datetime s with Some t => Ts t | None => NA end
  | Num x => match datetime_of_number x with Some t => Ts t | None => NA end
  end.

(** [s.replace(old, new)] for string tokens. *)
Definition replace (old new : string) (v : value) : value :=
  match v with
  | Str s => if decide (s = old) then Str new else v
  | _ => v
  end.

(** [s.fillna(x)]. *)
Definition fillna (x : value) (v : value) : value :=
  match v with NA => x | _ => v end.

Definition of_float (x : float) : value :=
  match x with Some q => Num q | None => NA end.

(** The order behind [sort_values] and group keys: numbers by value, strings
    by code point, timestamps by instant, missing values last.  Values of
    different kinds are ranked number, string, timestamp so that the relation
    is total; [sort_values] never compares them (it raises first). *)
Definition value_leb (a b : value) : bool :=
  match a, b with
  | _, NA => true
  | NA, _ => false
  | Num x, Num y => bool_decide (x ≤ y)%Qc
  | Str s, Str t => String.leb s t
  | Ts s, Ts t => (s <=? t)%Z
  | Num _, _ => true
  | Str _, Ts _ => true
  | _, _ => false
  end.

(** Insertion sort, for the places where every sort gives the same result:
    the numbers of a median or a quantile, the distinct keys of the groups. *)
Fixpoint insert_sorted {A} (leb : A → A → bool) (x : A) (l : list A) : list A :=
  match l with
  | [] => [x]
  | y :: l' => if leb x y then x :: l else y :: insert_sorted leb x l'
  end.

Definition sort {A} (leb : A → A → bool) (l : list A) : list A :=
  foldr (insert_sorted leb) [] l.

Definition Qc_leb (x y : Qc) : bool := bool_decide (x ≤ y)%Qc.

#[global] Instance Qc_inhabited : Inhabited Qc := populate 0%Qc.

(** The numeric entries of a column; aggregations skip missing values. *)
Definition numbers (vs : list value) : list Qc :=
  omap (λ v, match v with Num x => Some x | _ => None end) vs.

Definition is_numeric (v : value) : bool :=
  match v with NA | Num _ => true | _ => false end.

(** A reduction over a column holding a string or a timestamp raises. *)
Definition numeric_column (vs : list value) : Result (list Qc) :=
  if forallb is_numeric vs then Ok (numbers vs) else Raise TypeError.

(** *** float64 arithmetic

    A finite float64 is a rational number, and the model keeps its value.
    The result of an operation is the exact result rounded to the nearest
    float64, ties to even.  The exponent range is not bounded: overflow to
    infinity and subnormal numbers are not modelled. *)

(** [num / den] rounded to the nearest integer, ties to even, for
    [0 <= num] and [0 < den]. *)
Definition round_half_even (num den : Z) : Z :=
  let q := (num / den)%Z in
  match (2 * (num mod den) ?= den)%Z with
  | Lt => q
  | Gt => (q + 1)%Z
  | Eq => if Z.even q then q else (q + 1)%Z
  end.

(** The exponent [e] of the last place of [a / d], for [0 < a] and [0 < d]:
    [2^52 <= (a / d) / 2^e < 2^53]. *)
Definition ulp_exponent (a d : Z) : Z :=
  let k := (Z.log2 a - Z.log2 d)%Z in
  let below := if (0 <=? k)%Z then (a <? d * 2 ^ k)%Z else (a * 2 ^ (- k) <? d)%Z in
  ((if below then k - 1 else k) - 52)%Z.

Definition round64 (x : Qc) : Qc :=
  let n := Qnum x in
  let d := Z.pos (Qden x) in
  if (n =? 0)%Z then x
  else
    let a := Z.abs n in
    let e := ulp_exponent a d in
    let m := if (0 <=? e)%Z then round_half_even a (d * 2 ^ e)
             else round_half_even (a * 2 ^ (- e)) d in
    let r := if (0 <=? e)%Z then inject_Z (m * 2 ^ e) else Qmake m (Z.to_pos (2 ^ (- e))) in
    Q2Qc (if (n <? 0)%Z then Qopp r else r).

Definition add64 (x y : Qc) : Qc := round64 (x + y).
Definition sub64 (x y : Qc) : Qc := round64 (x - y).
Definition mul64 (x y : Qc) : Qc := round64 (x * y).
Definition div64 (x y : Qc) : Qc := round64 (x / y).

#[global] Arguments round64 : simpl never.
#[global] Arguments add64 : simpl never.
#[global] Arguments sub64 : simpl never.
#[global] Arguments mul64 : simpl never.
#[global] Arguments div64 : simpl never.

(** [s.median()]: NaN on a column with no number; the mean of the two middle
    numbers when their count is even. *)
Definition median (vs : list value) : Result float :=
  xs ← numeric_column vs;
  let xs := sort Qc_leb xs in
  let n := length xs in
  Ok (if decide (n = 0%nat) then None
      else if Nat.even n
           then Some (div64 (add64 (xs !!! (n / 2 - 1)%nat) (xs !!! (n / 2)%nat)) 2)
           else Some (xs !!! (n / 2)%nat)).

(** numpy's linear interpolation between two neighbours [a] and [b] at the
    fraction [t]: [a + (b - a) * t], and [b - (b - a) * (1 - t)] from
    [t = 0.5] on. *)
Definition lerp (a b t : Qc) : Qc :=
  let diff_b_a := sub64 b a in
  if decide (t < Q2Qc (1 # 2))%Qc then add64 a (mul64 diff_b_a t)
  else sub64 b (mul64 diff_b_a (sub64 1 t)).

#[global] Arguments lerp : simpl never.

(** [s.quantile(q)] with linear interpolation: position [(n - 1) * q] in the
    sorted numbers, interpolated between its two neighbours. *)
Definition quantile (q : Qc) (vs : list value) : Result float :=
  xs ← numeric_column vs;
  let xs := sort Qc_leb xs in
  let n := length xs in
  Ok (if decide (n = 0%nat) then None
      else
        let virtual_index := mul64 (Qc_of_Z (Z.of_nat (n - 1))) q in
        let previous_index := Qfloor virtual_index in
        let gamma := sub64 virtual_index (Qc_of_Z previous_index) in
        let previous := xs !!! Z.to_nat previous_index in
        let next := xs !!! Nat.min (Z.to_nat previous_index + 1) (n - 1) in
        Some (lerp previous next gamma)).

(** Float arithmetic and comparison with NaN: an operation on NaN is NaN, a
    comparison with NaN is false. *)
Definition fsub (a b : float) : float := x ← a; y ← b; Some (sub64 x y).
Definition fadd (a b : float) : float := x ← a; y ← b; Some (add64 x y).
Definition fmul (a b : float) : float := x ← a; y ← b; Some (mul64 x y).

Definition ge (v : value) (bound : float) : bool :=
  match v, bound with
  | Num x, Some b => bool_decide (b ≤ x)%Qc
  | _, _ => false
  end.

Definition le (v : value) (bound : float) : bool :=
  match v, bound with
  | Num x, Some b => bool_decide (x ≤ b)%Qc
  | _, _ => false
  end.

(** Python's [max(0, x)]: [x] when [x > 0], else the first argument. *)
Definition max0 (x : float) : float :=
  match x with
  | Some v => if decide (0 < v)%Qc then Some v else Some 0%Qc
  | None => Some 0%Qc
  end.

(** [df.drop_duplicates(subset=..., keep='first')]: rows compare by the tuple
    of their [subset] cells, missing values equal to each other. *)
Fixpoint keep_first {K} `{EqDecision K} (key : Row → K) (seen : list K)
    (l : list Row) : list Row :=
  match l with
  | [] => []
  | r :: l' =>
      if decide (key r ∈ seen) then keep_first key seen l'
      else r :: keep_first key (key r :: seen) l'
  end.

Definition tuple (subset : list string) (r : Row) : list value :=
  (λ c, cell c r) <$> subset.

Definition drop_duplicates (subset : list string) (df : DataFrame) : Result DataFrame :=
  if decide (subset ⊆ columns df)
  then Ok {| columns := columns df; rows := keep_first (tuple subset) [] (rows df) |}
  else Raise KeyError.

(** [df.dropna(subset=...)]. *)
Definition dropna (subset : list string) (df : DataFrame) : DataFrame :=
  {| columns := columns df;
     rows := filter (λ r, Forall (λ c, cell c r ≠ NA) subset) (rows df) |}.

(** [df.sort_values(by)]: missing keys last; comparing a number with a string
    (or either with a timestamp) raises. *)
Definition kind (v : value) : nat :=
  match v with NA => 0 | Num _ => 1 | Str _ => 2 | Ts _ => 3 end%nat.

Definition same_kind (vs : list value) : bool :=
  match filter (λ v, v ≠ NA) vs with
  | [] => true
  | v :: vs' => forallb (λ w, bool_decide (kind w = kind v)) vs'
  end.

(** [kind='quicksort'], the default of [sort_values] and the one the cleaners
    get: numpy documents it as not stable, so all that is known of it is what
    every sort gives, a rearrangement of the input in ascending order.  Rows
    with equal keys come out in an order the library chooses. *)
Class Quicksort := {
  quicksort : ∀ {A : Type}, (A → A → bool) → list A → list A;
  quicksort_Permutation : ∀ {A : Type} (leb : A → A → bool) (l : list A),
    quicksort leb l ≡ₚ l;
  quicksort_Sorted : ∀ {A : Type} (leb : A → A → bool) (l : list A),
    (∀ a b, leb a b = false → leb b a = true) →
    Sorted (λ a b, leb a b = true) (quicksort leb l)
}.

Definition sort_values `{Quicksort} (by_ : string) (df : DataFrame) : Result DataFrame :=
  if same_kind (column by_ df)
  then Ok {| columns := columns df;
             rows := quicksort (λ r1 r2, value_leb (cell by_ r1) (cell by_ r2)) (rows df) |}
  else Raise TypeError.

(** [df.reset_index(drop=True)]: labels become 0, 1, 2, ... *)
Definition reset_index (df : DataFrame) : DataFrame :=
  {| columns := columns df;
     rows := imap (λ i r, {| label := i; cells := cells r |}) (rows df) |}.

(** [str.upper()] and [str.strip()] on ASCII text. *)
Definition upper_ascii (a : ascii) : ascii :=
  let n := nat_of_ascii a in
  if ((97 <=? n) && (n <=? 122))%nat then ascii_of_nat (n - 32) else a.

Fixpoint upper (s : string) : string :=
  match s with
  | EmptyString => EmptyString
  | String a s' => String (upper_ascii a) (upper s')
  end.

Definition is_space (a : ascii) : bool :=
  let n := nat_of_ascii a in
  ((9 <=? n) && (n <=? 13) || (28 <=? n) && (n <=? 32))%nat.

Fixpoint lstrip (p : ascii → bool) (s : string) : string :=
  match s with
  | EmptyString => EmptyString
  | String a s' => if p a then lstrip p s' else s
  end.

Fixpoint rstrip (p : ascii → bool) (s : string) : string :=
  match s with
  | EmptyString => EmptyString
  | String a s' =>
      match rstrip p s' with
      | EmptyString => if p a then EmptyString else String a EmptyString
      | t => String a t
      end
  end.

Definition strip (s : string) : string := lstrip is_space (rstrip is_space s).

End Pandas.

(** ** data_scrubber.py (not among the sources) *)
Module DataScrubber.
Import Pandas.

(** Modelled from the spec: [DataScrubber.remove_duplicate_records], whose
    file is not among the sources.  Section 4.1, stage 1: "for the Sales
    entity, deduplicate on full-row equality instead of a single key",
    keeping the first occurrence. *)
Definition remove_duplicate_records (df : DataFrame) : DataFrame :=
  {| columns := columns df; rows := keep_first (tuple (columns df)) [] (rows df) |}.

(** Modelled from the spec: [DataScrubber.format_column_strings_to_upper_and_trim],
    whose file is not among the sources.  Section 4.1, stage 5: "upper-case
    and trim whitespace for designated categorical columns".  A cell that is
    not a string is left as it is. *)
Definition upper_and_trim (v : value) : value :=
  match v with
  | Str s => Str (strip (upper s))
  | _ => v
  end.

Definition format_column_strings_to_upper_and_trim (column : string)
    (df : DataFrame) : DataFrame :=
  assign column upper_and_trim df.

(** Modelled from the spec: [DataScrubber.filter_column_outliers], whose file
    is not among the sources.  Section 4.1, stage 6: "keep only rows with
    value in [lower, upper]". *)
Definition filter_column_outliers (column : string) (lower_bound upper_bound : float)
    (df : DataFrame) : DataFrame :=
  loc (λ r, ge (cell column r) lower_bound && le (cell column r) upper_bound) df.

End DataScrubber.

(** ** data_prep.py *)
Module DataPrep.
Import Pandas DataScrubber.

Section cleaners.
Context `{Parsers, Quicksort}.

(** [c in df.columns] *)
Definition has (c : string) (df : DataFrame) : bool := bool_decide (c ∈ columns df).

Definition existing (critical_columns : list string) (df : DataFrame) : list string :=
  filter (λ col, col ∈ columns df) critical_columns.

(** The closing log line divides by the number of input rows:
    [rows_removed / initial_shape[0] * 100]. *)
Definition log_rows_removed (initial_shape : nat) (df_temp : DataFrame) : Result DataFrame :=
  if decide (initial_shape = 0%nat) then Raise ZeroDivisionError else Ok df_temp.

(** *** clean_sales_data, one definition per numbered step of the source *)

Definition sales_critical_columns : list string :=
  ["TransactionID"; "SaleDate"; "CustomerID"; "ProductID"; "StoreID"; "SaleAmount"].

(** Step 1: remove duplicates. *)
Definition sales_remove_duplicates (df : DataFrame) : DataFrame :=
  remove_duplicate_records df.

(** Step 2: special values in numeric columns. *)
Definition sales_coerce (df_temp : DataFrame) : DataFrame :=
  let df_temp :=
    if has "SaleAmount" df_temp then assign "SaleAmount" to_numeric df_temp else df_temp in
  if has "Shipping" df_temp
  then assign "Shipping" to_numeric (assign "Shipping" (replace "free" "0") df_temp)
  else df_temp.

(** Step 3, first half: fill CampaignID with 0 and Shipping with its median. *)
Definition sales_fill (df_temp : DataFrame) : Result DataFrame :=
  let df_temp :=
    if has "CampaignID" df_temp then assign "CampaignID" (fillna (Num 0)) df_temp
    else df_temp in
  if has "Shipping" df_temp
  then median_shipping ← median (column "Shipping" df_temp);
       Ok (assign "Shipping" (fillna (of_float median_shipping)) df_temp)
  else Ok df_temp.

(** Step 3, second half: drop rows with missing critical values. *)
Definition sales_drop_critical (df_temp : DataFrame) : DataFrame :=
  dropna (existing sales_critical_columns df_temp) df_temp.

(** Step 4: State to upper case. *)
Definition sales_format (df_temp : DataFrame) : DataFrame :=
  if has "State" df_temp then format_column_strings_to_upper_and_trim "State" df_temp
  else df_temp.

(** Step 5, first half: remove negative values. *)
Definition sales_nonnegative (df_temp : DataFrame) : DataFrame :=
  let df_temp :=
    if has "SaleAmount" df_temp then loc (λ r, ge (cell "SaleAmount" r) (Some 0)) df_temp
    else df_temp in
  if has "Shipping" df_temp then loc (λ r, ge (cell "Shipping" r) (Some 0)) df_temp
  else df_temp.

(** The literal [1.5]. *)
Definition one_and_a_half : Qc := Q2Qc (3 # 2).

(** The bounds [Q1 - 1.5 * IQR] and [Q3 + 1.5 * IQR] of a column. *)
Definition iqr_bounds (vs : list value) : Result (float * float) :=
  Q1 ← quantile (Q2Qc (1 # 4)) vs;
  Q3 ← quantile (Q2Qc (3 # 4)) vs;
  let IQR := fsub Q3 Q1 in
  let lower_bound := fsub Q1 (fmul (Some one_and_a_half) IQR) in
  let upper_bound := fadd Q3 (fmul (Some one_and_a_half) IQR) in
  Ok (lower_bound, upper_bound).

(** Step 5, second half: IQR filter on SaleAmount. *)
Definition sales_outliers (df_temp : DataFrame) : Result DataFrame :=
  if has "SaleAmount" df_temp
  then '(lower_bound, upper_bound) ← iqr_bounds (column "SaleAmount" df_temp);
       Ok (filter_column_outliers "SaleAmount" lower_bound upper_bound df_temp)
  else Ok df_temp.

(** Step 6: convert the date column. *)
Definition sales_dates (df_temp : DataFrame) : DataFrame :=
  if has "SaleDate" df_temp then assign "SaleDate" to_datetime df_temp else df_temp.

(** Step 7: sort by TransactionID. *)
Definition sales_sort (df_temp : DataFrame) : Result DataFrame :=
  if has "TransactionID" df_temp
  then df_temp ← sort_values "TransactionID" df_temp; Ok (reset_index df_temp)
  else Ok df_temp.

(** Steps 1 to 5, up to the removal of negative values: the table whose
    SaleAmount column the quartiles are taken of. *)
Definition sales_before_outliers (df : DataFrame) : Result DataFrame :=
  let df_temp := sales_remove_duplicates df in
  let df_temp := sales_coerce df_temp in
  df_temp ← sales_fill df_temp;
  let df_temp := sales_drop_critical df_temp in
  let df_temp := sales_format df_temp in
  Ok (sales_nonnegative df_temp).

(** Steps 1 to 6: the table before the final sort renumbers its rows. *)
Definition sales_pipeline (df : DataFrame) : Result DataFrame :=
  df_temp ← sales_before_outliers df;
  df_temp ← sales_outliers df_temp;
  Ok (sales_dates df_temp).

Definition clean_sales_data (df : DataFrame) : Result DataFrame :=
  let initial_shape := length (rows df) in
  df_temp ← sales_pipeline df;
  df_temp ← sales_sort df_temp;
  log_rows_removed initial_shape df_temp.

(** *** clean_customers_data *)

Definition customers_critical_columns : list string := ["CustomerID"; "Name"].

(** Step 1: remove duplicates based on CustomerID (a [KeyError] without the
    column). *)
Definition customers_remove_duplicates (df : DataFrame) : Result DataFrame :=
  drop_duplicates ["CustomerID"] df.

(** Step 2: format string columns. *)
Definition customers_format (df_temp : DataFrame) : DataFrame :=
  let df_temp :=
    if has "Name" df_temp then format_column_strings_to_upper_and_trim "Name" df_temp
    else df_temp in
  if has "Region" df_temp then format_column_strings_to_upper_and_trim "Region" df_temp
  else df_temp.

(** Step 3: drop rows with missing CustomerID or Name, then fill the rest. *)
Definition customers_missing (df_temp : DataFrame) : DataFrame :=
  let df_temp := dropna (existing customers_critical_columns df_temp) df_temp in
  let df_temp :=
    if has "Region" df_temp then assign "Region" (fillna (Str "UNKNOWN")) df_temp
    else df_temp in
  let df_temp :=
    if has "NumberOfPurshases" df_temp
    then assign "NumberOfPurshases" (fillna (Num 0)) df_temp
    else df_temp in
  if has "ShoppingFrequency" df_temp
  then assign "ShoppingFrequency" (fillna (Num 0)) df_temp
  else df_temp.

(** Step 4: parse JoinDate. *)
Definition customers_dates (df_temp : DataFrame) : DataFrame :=
  if has "JoinDate" df_temp then assign "JoinDate" to_datetime df_temp else df_temp.

(** Step 5: IQR filter on NumberOfPurshases, lower bound clamped at 0. *)
Definition customers_outliers (df_temp : DataFrame) : Result DataFrame :=
  if has "NumberOfPurshases" df_temp
  then '(lower, upper_bound) ← iqr_bounds (column "NumberOfPurshases" df_temp);
       let lower_bound := max0 lower in
       Ok (loc (λ r, ge (cell "NumberOfPurshases" r) lower_bound
                     && le (cell "NumberOfPurshases" r) upper_bound) df_temp)
  else Ok df_temp.

(** Step 6: sort by CustomerID. *)
Definition customers_sort (df_temp : DataFrame) : Result DataFrame :=
  if has "CustomerID" df_temp
  then df_temp ← sort_values "CustomerID" df_temp; Ok (reset_index df_temp)
  else Ok df_temp.

Definition customers_pipeline (df : DataFrame) : Result DataFrame :=
  df_temp ← customers_remove_duplicates df;
  let df_temp := customers_format df_temp in
  let df_temp := customers_missing df_temp in
  let df_temp := customers_dates df_temp in
  customers_outliers df_temp.

Definition clean_customers_data (df : DataFrame) : Result DataFrame :=
  let initial_shape := length (rows df) in
  df_temp ← customers_pipeline df;
  df_temp ← customers_sort df_temp;
  log_rows_removed initial_shape df_temp.

(** *** clean_products_data *)

Definition products_critical_columns : list string := ["ProductID"; "ProductName"].

(** Step 1: remove duplicates based on ProductID. *)
Definition products_remove_duplicates (df : DataFrame) : Result DataFrame :=
  drop_duplicates ["ProductID"] df.

(** Step 2: format string columns. *)
Definition products_format (df_temp : DataFrame) : DataFrame :=
  let df_temp :=
    if has "ProductName" df_temp
    then format_column_strings_to_upper_and_trim "ProductName" df_temp
    else df_temp in
  if has "Category" df_temp then format_column_strings_to_upper_and_trim "Category" df_temp
  else df_temp.

(** Step 3: drop rows with missing ProductID or ProductName, fill Category,
    coerce Price and fill it with its median. *)
Definition products_missing (df_temp : DataFrame) : Result DataFrame :=
  let df_temp := dropna (existing products_critical_columns df_temp) df_temp in
  let df_temp :=
    if has "Category" df_temp then assign "Category" (fillna (Str "UNCATEGORIZED")) df_temp
    else df_temp in
  if has "Price" df_temp
  then let df_temp := assign "Price" to_numeric df_temp in
       median_price ← median (column "Price" df_temp);
       Ok (assign "Price" (fillna (of_float median_price)) df_temp)
  else Ok df_temp.

(** Step 4: remove negative prices, then the IQR filter with the lower bound
    clamped at 0. *)
Definition products_outliers (df_temp : DataFrame) : Result DataFrame :=
  if has "Price" df_temp
  then let df_temp := loc (λ r, ge (cell "Price" r) (Some 0)) df_temp in
       '(lower, upper_bound) ← iqr_bounds (column "Price" df_temp);
       let lower_bound := max0 lower in
       Ok (loc (λ r, ge (cell "Price" r) lower_bound
                     && le (cell "Price" r) upper_bound) df_temp)
  else Ok df_temp.

(** Step 5: sort by ProductID. *)
Definition products_sort (df_temp : DataFrame) : Result DataFrame :=
  if has "ProductID" df_temp
  then df_temp ← sort_values "ProductID" df_temp; Ok (reset_index df_temp)
  else Ok df_temp.

Definition products_pipeline (df : DataFrame) : Result DataFrame :=
  df_temp ← products_remove_duplicates df;
  let df_temp := products_format df_temp in
  df_temp ← products_missing df_temp;
  products_outliers df_temp.

Definition clean_products_data (df : DataFrame) : Result DataFrame :=
  let initial_shape := length (rows df) in
  df_temp ← products_pipeline df;
  df_temp ← products_sort df_temp;
  log_rows_removed initial_shape df_temp.

(** *** main: the cleaning entry point *)

(** The raw and the prepared data directories, by file name. *)
Record FileSystem := {
  raw_data_dir : gmap string DataFrame;
  prepared_data_dir : gmap string DataFrame
}.

#[global] Instance FileSystem_eq_dec : EqDecision FileSystem.
Proof. solve_decision. Defined.

(** What the loop writes to the log about each file. *)
Inductive log_record :=
  | LogSuccess (file : string)            (* logger.info: processed *)
  | LogWarning (file : string) (e : exn)  (* logger.warning: skipping *)
  | LogError (file : string) (e : exn).   (* logger.error: error processing *)

#[global] Instance log_record_eq_dec : EqDecision log_record.
Proof. solve_decision. Defined.

Record file_info := {
  input : string;
  output : string;
  cleaner : DataFrame → Result DataFrame
}.

Definition files_to_process : list file_info :=
  [ {| input := "sales_data.csv"; output := "sales_prepared.csv";
       cleaner := clean_sales_data |};
    {| input := "customers_data.csv"; output := "customers_prepared.csv";
       cleaner := clean_customers_data |};
    {| input := "products_data.csv"; output := "products_prepared.csv";
       cleaner := clean_products_data |} ].

Definition read_csv_file (fs : FileSystem) (file_name : string) : Result DataFrame :=
  match raw_data_dir fs !! file_name with
  | Some df => Ok df
  | None => Raise FileNotFoundError
  end.

Definition save_csv_file (df : DataFrame) (file_name : string) (fs : FileSystem) : FileSystem :=
  {| raw_data_dir := raw_data_dir fs;
     prepared_data_dir := <[file_name := df]> (prepared_data_dir fs) |}.

(** The body of the [try]: read, clean, save. *)
Definition process_file (f : file_info) (fs : FileSystem) : Result FileSystem :=
  df ← read_csv_file fs (input f);
  cleaned_df ← cleaner f df;
  Ok (save_csv_file cleaned_df (output f) fs).

(** The [for] loop with its two handlers; the result is the file system, the
    log and whether the call returned or raised. *)
Fixpoint process_files (files : list file_info) (fs : FileSystem) (log : list log_record)
    : FileSystem * list log_record * Result unit :=
  match files with
  | [] => (fs, log, Ok ())
  | f :: rest =>
      match process_file f fs with
      | Ok fs' => process_files rest fs' (log ++ [LogSuccess (input f)])%list
      | Raise FileNotFoundError =>
          process_files rest fs (log ++ [LogWarning (input f) FileNotFoundError])%list
      | Raise e => (fs, (log ++ [LogError (input f) e])%list, Raise e)
      end
  end.

Definition main (fs : FileSystem) : FileSystem * list log_record * Result unit :=
  process_files files_to_process fs [].

End cleaners.
End DataPrep.

(** ** etl_to_dw.py *)
Module EtlToDw.
Import Pandas.

(** A table of the warehouse: its declared columns, its primary key if it
    has one, and its rows.  A database is its tables by name. *)
Record Table := {
  table_columns : list string;
  primary_key : option string;
  table_rows : list (gmap string value)
}.

#[global] Instance Table_eq_dec : EqDecision Table.
Proof. solve_decision. Defined.

Abbreviation Database := (gmap string Table).

(** The points of a run at which the environment can make it fail. *)
Inductive step :=
  | Unlink | Connect | CreateSchema | DeleteExisting
  | ReadCustomers | ReadProducts | ReadSales
  | InsertCustomers | InsertProducts | InsertSales
  | Commit.

#[global] Instance step_eq_dec : EqDecision step.
Proof. solve_decision. Defined.

(** What SQLite makes of one row that an [INSERT] hands it, for the table as
    it stands: the row it stores, or the error.  This takes in the matching
    of the column names (the statement of a row that names a column the
    table does not have is an OperationalError), the rowid given to a row
    without a key, the conversions of the column affinities and the
    IntegrityError of a repeated or ill-typed key.  The source decides none
    of it, and what is proved of a load holds whatever it is. *)
Class Sqlite := {
  insert_row : Table → list (string * value) → Result (gmap string value)
}.

(** The world of one run.  [db_file] is the database stored at [DB_PATH]
    (what has been committed); [connection] is the view of the open
    connection, committed data and pending changes together, and [None] when
    no connection is open; [in_transaction] says whether the connection has
    a transaction open; [fault] says which steps the environment fails. *)
Record World := {
  db_file : option Database;
  prepared : gmap string DataFrame;
  connection : option Database;
  in_transaction : bool;
  fault : step → option exn
}.




(** State and exceptions: a computation returns the new world and either a
    value or the exception it raised. *)
Definition M (A : Type) : Type := World → World * Result A.

#[global] Instance M_ret : MRet M := λ A a w, (w, Ok a).
#[global] Instance M_bind : MBind M := λ A B f m w,
  match m w with
  | (w', Ok a) => f a w'
  | (w', Raise e) => (w', Raise e)
  end.









Definition sale_columns : list string :=
  ["sale_id"; "customer_id"; "product_id"; "store_id"; "campaign_id"; "sale_amount";
   "sale_date"; "shipping"; "state"].









Section load.
Context `{Sqlite}.












End load.
End EtlToDw.

(** ** olap/cubing.py *)
Module Cubing.
Import Pandas.

(** A value of the [measures] dict: a list of function names, or one name. *)
Inductive agg_spec :=
  | Funcs (funcs : list string)
  | Func (func : string).

Definition funcs_of (a : agg_spec) : list string :=
  match a with Funcs l => l | Func f => [f] end.

(** The [measures] dict in insertion order. *)
Abbreviation Measures := (list (string * agg_spec)).

(** The cube: a frame addressed by position, since [cube.columns = names]
    assigns the names by position and two of them may coincide. *)
Record Frame := { header : list string; body : list (list value) }.

#[global] Instance Frame_eq_dec : EqDecision Frame.
Proof. solve_decision. Defined.

(** pandas' named reductions ("sum", "mean", ...): [None] for a name pandas
    does not know; a reduction can raise on the values it is given. *)
Class Aggregations := {
  aggregate : string → option (list value → Result value)
}.

Definition is_underscore (a : ascii) : bool := bool_decide (a = "_"%char).

Definition generate_column_names (dimensions : list string) (measures : Measures)
    : list string :=
  let column_names := dimensions in
  let column_names :=
    foldl (λ column_names '(column, agg_func),
             match agg_func with
             | Funcs funcs =>
                 foldl (λ column_names func,
                          (column_names ++ [column +:+ "_" +:+ func])%list)
                       column_names funcs
             | Func func => (column_names ++ [column +:+ "_" +:+ func])%list
             end)
          column_names measures in
  rstrip is_underscore <$> column_names.

(** The names in the spec's words: one name "{measure}_{function}" per
    measure and function, in the order of the mapping. *)
Definition measure_names (measures : Measures) : list string :=
  flat_map (λ m, (λ func, m.1 +:+ "_" +:+ func) <$> funcs_of m.2) measures.

(** The number of functions asked of one measure. *)
Definition n_funcs (m : string * agg_spec) : nat := length (funcs_of m.2).

Fixpoint last_char (s : string) : option ascii :=
  match s with
  | EmptyString => None
  | String a EmptyString => Some a
  | String _ s' => last_char s'
  end.

Fixpoint underscores (n : nat) : string :=
  match n with
  | O => EmptyString
  | S n' => String "_" (underscores n')
  end.

(** Lexicographic order on group keys. *)
Fixpoint tuple_leb (k1 k2 : list value) : bool :=
  match k1, k2 with
  | [], _ => true
  | _ :: _, [] => false
  | a :: k1', b :: k2' =>
      if decide (a = b) then tuple_leb k1' k2' else value_leb a b
  end.

(** [df.groupby(dimensions)], with pandas' defaults [sort=True] and
    [dropna=True]: a row with a missing value in a grouping column belongs to
    no group. *)
Definition groupby (df : DataFrame) (dimensions : list string)
    : Result (list (list value * list Row)) :=
  if decide (dimensions = []) then Raise ValueError
  else if decide (dimensions ⊆ columns df)
  then
    let present := filter (λ r, NA ∉ tuple dimensions r) (rows df) in
    let keys := sort tuple_leb (remove_dups (tuple dimensions <$> present)) in
    Ok ((λ k, (k, filter (λ r, tuple dimensions r = k) present)) <$> keys)
  else Raise KeyError.

(** The distinct dimension tuples of the rows of the fact table that have no
    missing value in a dimension column. *)
Definition group_keys (df : DataFrame) (dimensions : list string) : list (list value) :=
  remove_dups (tuple dimensions <$> filter (λ r, NA ∉ tuple dimensions r) (rows df)).

Fixpoint mapM {A B} (f : A → Result B) (l : list A) : Result (list B) :=
  match l with
  | [] => Ok []
  | x :: l' => y ← f x; ys ← mapM f l'; Ok (y :: ys)
  end.

Section cube.
Context `{Aggregations}.

(** One measure column reduced by one named function over one group. *)
Definition reduce (group : list Row) (column func : string) : Result value :=
  match aggregate func with
  | Some f => f (cell column <$> group)
  | None => Raise AttributeError
  end.

(** What [agg] checks before it touches a row: the dict is not empty, every
    measure is a column of the frame, and every function name is known.  A
    function may be named twice, a measure may be a grouping column, and a
    function list may be empty. *)
Definition check_measures (df : DataFrame) (dimensions : list string)
    (measures : Measures) : Result unit :=
  if decide (measures = []) then Raise ValueError
  else if decide (Forall (λ m, m.1 ∈ columns df) measures)
  then if decide (Forall (λ m, Forall (λ f, is_Some (aggregate f)) (funcs_of m.2)) measures)
  then Ok ()
  else Raise AttributeError
  else Raise KeyError.

(** [agg] makes one frame per measure, a column per function and a row per
    group, and concatenates the frames that are not empty, or all of them
    when all are empty.  A measure with an empty function list gives a frame
    with no column, no row and no group index.  The result is indexed like
    the first frame concatenated: by the groups when that measure names a
    function, and otherwise by a plain index without rows. *)
Definition indexed_by_groups (grouped : list (list value * list Row))
    (measures : Measures) : bool :=
  match measures with
  | m :: _ =>
      bool_decide (funcs_of m.2 ≠ [])
      || bool_decide (grouped ≠ [] ∧ Exists (λ m, funcs_of m.2 ≠ []) measures)
  | [] => false
  end.

(** [grouped.agg(measures).reset_index()]: one row per group, the key first,
    then one value per measure and function; [reset_index] refuses to insert
    a grouping column twice.  When the result is not indexed by the groups,
    [reset_index] inserts the plain index as one column.  The column labels
    before renaming are not modelled beyond their number: the caller
    replaces them. *)
Definition agg_reset_index (df : DataFrame) (dimensions : list string)
    (grouped : list (list value * list Row)) (measures : Measures) : Result Frame :=
  check_measures df dimensions measures;;
  body ← mapM (λ '(key, group),
                 values ← mapM (λ '(column, func), reduce group column func)
                               (flat_map (λ m, (λ f, (m.1, f)) <$> funcs_of m.2) measures);
                 Ok (key ++ values)%list)
              grouped;
  let labels := flat_map (λ m, (λ _, m.1) <$> funcs_of m.2) measures in
  if indexed_by_groups grouped measures
  then if decide (NoDup dimensions)
       then Ok {| header := (dimensions ++ labels)%list; body := body |}
       else Raise ValueError
  else Ok {| header := ("index" :: labels)%list; body := [] |}.

(** [cube.columns = names]: a [ValueError] on a length mismatch. *)
Definition set_columns (names : list string) (cube : Frame) : Result Frame :=
  if decide (length names = length (header cube))
  then Ok {| header := names; body := body cube |}
  else Raise ValueError.

(** The [except] clause logs and re-raises, so the result is the body's. *)
Definition create_olap_cube (sales_df : DataFrame) (dimensions : list string)
    (measures : Measures) : Result Frame :=
  grouped ← groupby sales_df dimensions;
  cube ← agg_reset_index sales_df dimensions grouped measures;
  let explict_columns := generate_column_names dimensions measures in
  set_columns explict_columns cube.

End cube.
End Cubing.

(** ** Relations between frames, and the form of a cleaned table *)
Module Invariants.
Import Pandas DataScrubber DataPrep EtlToDw.

(** The relation of a boolean comparison. *)
Definition le_of {A : Type} (leb : A → A → bool) : relation A := λ x y, leb x y = true.

(** [narrows k df' df]: the frame [df'] has the columns of [df], and its
    column [k] holds values of the column [k] of [df], each at most as often. *)
Definition narrows (k : string) (df' df : DataFrame) : Prop :=
  columns df' = columns df ∧ column k df' ⊆+ column k df.

(** [traces k df' df]: the frame [df'] has the columns of [df], and each of
    its rows is a row of [df] by its label, with the same cell in column [k]. *)
Definition traces (k : string) (df' df : DataFrame) : Prop :=
  columns df' = columns df ∧
  ∀ r', r' ∈ rows df' → ∃ r, r ∈ rows df ∧ label r' = label r ∧ cell k r' = cell k r.

(** [holds c P df]: every row of [df] has an entry for [c], and it
    satisfies [P]. *)
Definition holds (c : string) (P : value → Prop) (df : DataFrame) : Prop :=
  ∀ r, r ∈ rows df → ∃ v, cells r !! c = Some v ∧ P v.

(** [carries c df' df]: every row of [df'] has its entry for [c] from a row
    of [df]. *)
Definition carries (c : string) (df' df : DataFrame) : Prop :=
  columns df' = columns df ∧
  ∀ r', r' ∈ rows df' → ∃ r, r ∈ rows df ∧ cells r' !! c = cells r !! c.

(** [within df' df]: the rows of [df'] are rows of [df], in their order. *)
Definition within (df' df : DataFrame) : Prop :=
  columns df' = columns df ∧ rows df' `sublist_of` rows df.

(** Sorted by the column [k], missing values last. *)
Definition key_le (k : string) : relation Row :=
  λ r1 r2, value_leb (cell k r1) (cell k r2) = true.

Definition sorted_by (k : string) (df : DataFrame) : Prop := Sorted (key_le k) (rows df).

(** If the frame has the column, every row has an entry for it that
    satisfies [P]. *)
Definition settled (c : string) (P : value → Prop) (df : DataFrame) : Prop :=
  c ∈ columns df → holds c P df.

Definition is_number (v : value) : Prop := ∃ x, v = Num x.

(** [m] is the median of the numbers [xs]: NaN when there is none; else,
    with the numbers in ascending order, the middle one when their count is
    odd and the float64 mean of the two middle ones when it is even. *)
Definition is_median (m : float) (xs : list Qc) : Prop :=
  match m with
  | None => xs = []
  | Some q =>
      ∃ s, s ≡ₚ xs ∧ Sorted Qcle s ∧
           ((Nat.odd (length s) = true ∧ s !! (length s / 2)%nat = Some q) ∨
            (Nat.even (length s) = true ∧
             ∃ a b, s !! (length s / 2 - 1)%nat = Some a ∧ s !! (length s / 2)%nat = Some b ∧
                    q = div64 (add64 a b) 2))
  end.

Section cleaned.
Context `{Parsers, Quicksort}.

(** The form of a cleaned table, column by column: text columns are already
    upper-cased and trimmed, parsed columns are already parsed, filled
    columns hold no missing value, and the rows are sorted by the key. *)
Record customers_cleaned (df : DataFrame) : Prop := {
  customers_name : settled "Name" (λ v, upper_and_trim v = v) df;
  customers_region : settled "Region" (λ v, upper_and_trim v = v ∧ v ≠ NA) df;
  customers_purchases : settled "NumberOfPurshases" (λ v, v ≠ NA) df;
  customers_frequency : settled "ShoppingFrequency" (λ v, v ≠ NA) df;
  customers_join_date : settled "JoinDate" (λ v, to_datetime v = v) df;
  customers_sorted : sorted_by "CustomerID" df
}.

Record products_cleaned (df : DataFrame) : Prop := {
  products_name : settled "ProductName" (λ v, upper_and_trim v = v) df;
  products_category : settled "Category" (λ v, upper_and_trim v = v ∧ v ≠ NA) df;
  products_price : settled "Price" is_number df;
  products_sorted : sorted_by "ProductID" df
}.

Record sales_cleaned (df : DataFrame) : Prop := {
  sales_amount : settled "SaleAmount" (λ v, to_numeric v = v) df;
  sales_shipping : settled "Shipping" is_number df;
  sales_campaign : settled "CampaignID" (λ v, v ≠ NA) df;
  sales_state : settled "State" (λ v, upper_and_trim v = v) df;
  sales_date : settled "SaleDate" (λ v, to_datetime v = v) df;
  sales_sorted : "TransactionID" ∈ columns df → sorted_by "TransactionID" df
}.

(** What cleaning a cleaned table again keeps: the header, and the rows as a
    subsequence of the rows it was given. *)
Definition kept_by_recleaning (cleaned again : DataFrame) : Prop :=
  columns again = columns cleaned ∧
  (cells <$> rows again) `sublist_of` (cells <$> rows cleaned) ∧
  (length (rows again) ≤ length (rows cleaned))%nat ∧
  ∀ c, column c again `sublist_of` column c cleaned.

(** The same without the order: the header, and the rows as rows of the
    table it was given, each at most as often. *)
Definition kept_in_some_order (cleaned again : DataFrame) : Prop :=
  columns again = columns cleaned ∧
  (cells <$> rows again) ⊆+ (cells <$> rows cleaned) ∧
  (length (rows again) ≤ length (rows cleaned))%nat ∧
  ∀ c, column c again ⊆+ column c cleaned.

End cleaned.

(** What the loop has added to the log when it ends: one record per file it
    went through, and a final error record exactly when it raised. *)
Inductive logged : list file_info → list log_record → Result unit → Prop :=
  | logged_done : logged [] [] (Ok ())
  | logged_success f rest records r :
      logged rest records r → logged (f :: rest) (LogSuccess (input f) :: records) r
  | logged_skipped f rest records r :
      logged rest records r →
      logged (f :: rest) (LogWarning (input f) FileNotFoundError :: records) r
  | logged_raised f rest e :
      e ≠ FileNotFoundError → logged (f :: rest) [LogError (input f) e] (Raise e).

(** The exceptions a cleaner can raise. *)
Definition raises_only {A} (allowed : list exn) (m : Result A) : Prop :=
  ∀ e, m = Raise e → e ∈ allowed.

Definition cleaner_errors : list exn := [KeyError; TypeError; ZeroDivisionError].


Section stored.
Context `{Sqlite}.




End stored.

End Invariants.

(** ** Concrete instances and tables used by the examples *)
Module Fixtures.
Import Pandas DataPrep EtlToDw Cubing.

(** Decimal tokens: an optional minus sign, digits, an optional fraction. *)
Definition digit (a : ascii) : option Z :=
  let n := nat_of_ascii a in
  if ((48 <=? n) && (n <=? 57))%nat then Some (Z.of_nat (n - 48)) else None.

Fixpoint decimal_go (s : string) (m : Z) (d : positive) (dot any : bool) : option Qc :=
  match s with
  | EmptyString => if any then Some (Q2Qc (m # d)) else None
  | String a s' =>
      match digit a with
      | Some k => decimal_go s' (10 * m + k)%Z (if dot then (10 * d)%positive else d) dot true
      | None =>
          if bool_decide (a = "."%char) && negb dot then decimal_go s' m d true any
          else None
      end
  end.

Definition decimal (s : string) : option Qc :=
  match s with
  | String "-" s' => Qcopp <$> decimal_go s' 0 1 false false
  | _ => decimal_go s 0 1 false false
  end.

(** Dates written YYYY-MM-DD; the instant is the day as the number YYYYMMDD. *)
Definition two_digits (a b : ascii) : option Z :=
  x ← digit a; y ← digit b; Some (10 * x + y)%Z.

Definition iso_date (s : string) : option Z :=
  match s with
  | String y1 (String y2 (String y3 (String y4 (String "-" (String m1 (String m2
      (String "-" (String d1 (String d2 EmptyString))))))))) =>
      yh ← two_digits y1 y2; yl ← two_digits y3 y4;
      m ← two_digits m1 m2; d ← two_digits d1 d2;
      if ((1 <=? m) && (m <=? 12) && (1 <=? d) && (d <=? 31))%Z
      then Some ((100 * yh + yl) * 10000 + m * 100 + d)%Z
      else None
  | _ => None
  end.

#[export] Instance parsers : Parsers := {|
  parse_float := λ s, round64 <$> decimal s;
  parse_datetime := iso_date;
  datetime_of_number := λ x, Some (Qfloor x)
|}.

(** The reductions "sum", "count", "mean", "min" and "max". *)
Definition sum_Qc (xs : list Qc) : Qc := foldr Qcplus 0 xs.

Definition named_reduction (func : string) : option (list value → Result value) :=
  if decide (func = "sum") then Some (λ vs, xs ← numeric_column vs; Ok (Num (sum_Qc xs)))
  else if decide (func = "count")
  then Some (λ vs, Ok (Num (Qc_of_Z (Z.of_nat (length (filter (λ v, v ≠ NA) vs))))))
  else if decide (func = "mean")
  then Some (λ vs, xs ← numeric_column vs;
                   Ok (match xs with
                       | [] => NA
                       | _ => Num (sum_Qc xs / Qc_of_Z (Z.of_nat (length xs)))
                       end))
  else if decide (func = "min")
  then Some (λ vs, xs ← numeric_column vs; Ok (of_float (head (sort Qc_leb xs))))
  else if decide (func = "max")
  then Some (λ vs, xs ← numeric_column vs; Ok (of_float (last (sort Qc_leb xs))))
  else None.

#[export] Instance aggregations : Aggregations := {| aggregate := named_reduction |}.

(** The sort of the examples: insertion sort. *)
#[export, refine] Instance insertion_sort : Quicksort := {| quicksort := @sort |}.
Proof.
  - intros A leb l.
    assert (∀ x l', insert_sorted leb x l' ≡ₚ x :: l') as Hinsert.
    { intros x l'. induction l' as [|y l' IH]; simpl; [done|].
      destruct (leb x y); [done|]. rewrite IH. apply Permutation_swap. }
    induction l as [|x l IH]; simpl; [done|]. rewrite Hinsert. by f_equiv.
  - intros A leb l Htotal.
    induction l as [|x l IH]; simpl; [constructor|].
    induction IH as [|y l' Hl' IH' Hhd]; simpl; [repeat constructor|].
    destruct (leb x y) eqn:Hxy.
    + constructor; [by constructor | by constructor].
    + constructor; [done|].
      destruct Hhd as [|z l' Hyz]; simpl.
      * constructor. by apply Htotal.
      * destruct (leb x z); constructor; [by apply Htotal | done].
Defined.

(** An SQLite for the examples.  Column names match whatever their case; a
    row without columns, or with a column the table does not have, is an
    OperationalError.  The key of a table that declares one is an integer: a
    missing key gets the next rowid, a number that is whole and a numeral
    are taken as they are, anything else and a key that is already there is
    an IntegrityError.  The other cells are stored as they are given. *)
Definition table_column (t : Table) (c : string) : option string :=
  head (filter (λ c', upper c' = upper c) (table_columns t)).

Definition stored_keys (pk : string) (t : Table) : list Z :=
  omap (λ m, match m !! pk with Some (Num q) => Some (Qfloor q) | _ => None end)
       (table_rows t).

Definition next_rowid (keys : list Z) : Z :=
  match keys with [] => 1 | k :: keys => foldr Z.max k keys + 1 end%Z.

Definition integer_key (v : value) : option (option Z) :=
  let whole (q : Qc) := if decide (Qc_of_Z (Qfloor q) = q) then Some (Some (Qfloor q)) else None in
  match v with
  | NA => Some None
  | Num q => whole q
  | Str s => decimal s ≫= whole
  | Ts _ => None
  end.

Fixpoint table_cells (t : Table) (r : list (string * value))
    : option (list (string * value)) :=
  match r with
  | [] => Some []
  | cv :: r => c ← table_column t cv.1; named ← table_cells t r; Some ((c, cv.2) :: named)
  end.

Definition insert_row_example (t : Table) (r : list (string * value))
    : Result (gmap string value) :=
  if decide (r = []) then Raise OperationalError
  else match table_cells t r with
       | None => Raise OperationalError
       | Some named =>
           let m : gmap string value := list_to_map named in
           match primary_key t with
           | None => Ok m
           | Some pk =>
               let keys := stored_keys pk t in
               match integer_key (default NA (m !! pk)) with
               | Some None => Ok (<[pk := Num (Qc_of_Z (next_rowid keys))]> m)
               | Some (Some k) =>
                   if decide (k ∈ keys) then Raise IntegrityError
                   else Ok (<[pk := Num (Qc_of_Z k)]> m)
               | None => Raise IntegrityError
               end
           end
       end.

#[export] Instance sqlite : Sqlite := {| insert_row := insert_row_example |}.

(** A frame as [pd.read_csv] returns it: labels 0, 1, 2, ... *)
Definition frame (cols : list string) (data : list (list value)) : DataFrame :=
  {| columns := cols;
     rows := imap (λ i vs, {| label := i; cells := list_to_map (zip cols vs) |}) data |}.

Definition int (n : Z) : value := Num (Qc_of_Z n).

(** *** Sales extracts *)

Definition sales_columns : list string :=
  ["TransactionID"; "SaleDate"; "CustomerID"; "ProductID"; "StoreID"; "CampaignID";
   "SaleAmount"; "Shipping"; "State"].

Definition sale (transaction : Z) (date : string) (customer product store : Z)
    (campaign amount shipping : value) (state : string) : list value :=
  [int transaction; Str date; int customer; int product; int store; campaign;
   amount; shipping; Str state].

(** Six sales as [read_csv] loads them: SaleAmount holds a "?" and Shipping a
    "free", so both columns arrive as text; one Shipping is missing. *)
Definition sales_raw : DataFrame :=
  frame sales_columns
    [ sale 1 "2024-01-05" 101 201 401 (int 0) (Str "10") (Str "free") " tx";
      sale 2 "2024-01-06" 102 202 401 NA (Str "10") (Str "5") "TX";
      sale 3 "2024-01-07" 103 203 402 (int 2) (Str "10") NA "ok";
      sale 4 "2024-01-08" 104 204 402 (int 0) (Str "12") (Str "5") "OK";
      sale 5 "2024-01-09" 105 205 403 (int 1) (Str "100") (Str "5") "ks";
      sale 6 "2024-01-10" 106 206 403 (int 0) (Str "?") (Str "5") "KS" ].

(** What [clean_sales_data] returns for it. *)
Definition clean_sale (transaction date customer product store campaign : Z)
    (amount shipping : Z) (state : string) : list value :=
  [int transaction; Ts date; int customer; int product; int store; int campaign;
   int amount; int shipping; Str state].

Definition sales_prepared : DataFrame :=
  frame sales_columns
    [ clean_sale 1 20240105 101 201 401 0 10 0 "TX";
      clean_sale 2 20240106 102 202 401 0 10 5 "TX";
      clean_sale 3 20240107 103 203 402 2 10 5 "OK";
      clean_sale 4 20240108 104 204 402 0 12 5 "OK" ].

(** What [clean_sales_data] returns for its own output. *)
Definition sales_prepared_again : DataFrame :=
  frame sales_columns
    [ clean_sale 1 20240105 101 201 401 0 10 0 "TX";
      clean_sale 2 20240106 102 202 401 0 10 5 "TX";
      clean_sale 3 20240107 103 203 402 2 10 5 "OK" ].

(** Five sales with the Shipping values 9, missing, 2, -3 and "free". *)
Definition sales_missing_shipping : DataFrame :=
  frame sales_columns
    [ sale 1 "2024-01-05" 101 201 401 (int 0) (int 10) (Str "9") "TX";
      sale 2 "2024-01-06" 102 202 401 (int 0) (int 10) NA "TX";
      sale 3 "2024-01-07" 103 203 402 (int 0) (int 10) (Str "2") "OK";
      sale 4 "2024-01-08" 104 204 402 (int 0) (int 10) (Str "-3") "OK";
      sale 5 "2024-01-09" 105 205 403 (int 0) (int 10) (Str "free") "KS" ].

(** What [clean_sales_data] returns for it: the median of 9, 2, -3 and 0 is
    1, and the sale with the negative Shipping is gone. *)
Definition sales_missing_shipping_prepared : DataFrame :=
  frame sales_columns
    [ clean_sale 1 20240105 101 201 401 0 10 9 "TX";
      clean_sale 2 20240106 102 202 401 0 10 1 "TX";
      clean_sale 3 20240107 103 203 402 0 10 2 "OK";
      clean_sale 5 20240109 105 205 403 0 10 0 "KS" ].

(** Four sales whose amounts are not binary fractions. *)
Definition sales_with_fractions : DataFrame :=
  frame sales_columns
    [ sale 1 "2024-01-05" 101 201 401 (int 0) (Str "3.0") (int 5) "TX";
      sale 2 "2024-01-06" 102 202 401 (int 0) (Str "4.2") (int 5) "TX";
      sale 3 "2024-01-07" 103 203 402 (int 0) (Str "4.4") (int 5) "OK";
      sale 4 "2024-01-08" 104 204 402 (int 0) (Str "4.8") (int 5) "OK" ].

(** Two sales that share a TransactionID and differ in the customer. *)
Definition sales_repeated_id : DataFrame :=
  frame sales_columns
    [ sale 1 "2024-01-05" 101 201 401 (int 0) (int 10) (int 5) "TX";
      sale 1 "2024-01-05" 102 201 401 (int 0) (int 10) (int 5) "TX" ].

Definition sales_repeated_id_prepared : DataFrame :=
  frame sales_columns
    [ clean_sale 1 20240105 101 201 401 0 10 5 "TX";
      clean_sale 1 20240105 102 201 401 0 10 5 "TX" ].

(** *** Customer extracts *)

Definition customers_columns : list string :=
  ["CustomerID"; "Name"; "Region"; "JoinDate"; "NumberOfPurshases"; "ShoppingFrequency"].

(** Six customers; the third repeats the CustomerID of the first. *)
Definition customers_raw : DataFrame :=
  frame customers_columns
    [ [int 1; Str " ann lee"; Str "east"; Str "2023-01-10"; int 10; Str "weekly"];
      [int 2; Str "Bob Ray"; NA; Str "2023-02-11"; int 10; Str "monthly"];
      [int 1; Str "Ann Again"; Str "west"; Str "2023-03-12"; int 55; Str "daily"];
      [int 3; Str "cy dow"; Str "west "; Str "not a date"; int 10; NA];
      [int 4; Str "Di Eve"; Str "north"; Str "2023-04-13"; int 12; Str "weekly"];
      [int 5; Str "Ed Fox"; Str "south"; Str "2023-05-14"; int 100; Str "weekly"] ].

(** What [clean_customers_data] returns for it, and for its own output. *)
Definition customers_prepared : DataFrame :=
  frame customers_columns
    [ [int 1; Str "ANN LEE"; Str "EAST"; Ts 20230110; int 10; Str "weekly"];
      [int 2; Str "BOB RAY"; Str "UNKNOWN"; Ts 20230211; int 10; Str "monthly"];
      [int 3; Str "CY DOW"; Str "WEST"; NA; int 10; int 0];
      [int 4; Str "DI EVE"; Str "NORTH"; Ts 20230413; int 12; Str "weekly"] ].

Definition customers_prepared_again : DataFrame :=
  frame customers_columns
    [ [int 1; Str "ANN LEE"; Str "EAST"; Ts 20230110; int 10; Str "weekly"];
      [int 2; Str "BOB RAY"; Str "UNKNOWN"; Ts 20230211; int 10; Str "monthly"];
      [int 3; Str "CY DOW"; Str "WEST"; NA; int 10; int 0] ].

(** *** Product extracts *)

Definition products_columns : list string :=
  ["ProductID"; "ProductName"; "Category"; "Price"; "StockQuantity"; "Supplier"].

(** Five products: a repeated ProductID, a missing name, an unparseable and a
    negative price. *)
Definition products_raw : DataFrame :=
  frame products_columns
    [ [int 201; Str " laptop"; Str "electronics"; Str "900"; int 5; Str "acme"];
      [int 202; Str "mouse"; NA; Str "?"; int 50; Str "acme"];
      [int 201; Str "laptop pro"; Str "electronics"; Str "1500"; int 2; Str "acme"];
      [int 203; NA; Str "office"; Str "20"; int 9; Str "bolt"];
      [int 204; Str "desk"; Str "furniture "; Str "-5"; int 1; Str "bolt"];
      [int 205; Str "lamp"; Str "furniture"; Str "880"; int 7; Str "bolt"] ].

Definition products_prepared : DataFrame :=
  frame products_columns
    [ [int 201; Str "LAPTOP"; Str "ELECTRONICS"; int 900; int 5; Str "acme"];
      [int 202; Str "MOUSE"; Str "UNCATEGORIZED"; int 880; int 50; Str "acme"];
      [int 205; Str "LAMP"; Str "FURNITURE"; int 880; int 7; Str "bolt"] ].

(** *** Raw data directories *)

(** No sales extract. *)
Definition raw_without_sales : FileSystem :=
  {| raw_data_dir := {[ "customers_data.csv" := customers_raw;
                        "products_data.csv" := products_raw ]};
     prepared_data_dir := ∅ |}.

(** A customers extract without the CustomerID column. *)
Definition customers_without_id : DataFrame :=
  frame ["Name"; "Region"] [ [Str "Ann Lee"; Str "east"] ].

Definition raw_with_broken_customers : FileSystem :=
  {| raw_data_dir := {[ "sales_data.csv" := sales_raw;
                        "customers_data.csv" := customers_without_id;
                        "products_data.csv" := products_raw ]};
     prepared_data_dir := ∅ |}.

(** *** Worlds of a load *)









(** *** Fact tables *)

(** A row of the warehouse's sale table. *)
Definition fact (sale_id : Z) (product_id amount : value) : list value :=
  [int sale_id; int 101; product_id; int 401; int 0; amount; Str "2024-01-05"; int 5;
   Str "TX"].

Definition sales_by_product : Measures := [("sale_amount", Funcs ["sum"])].

(** Three sales of two products. *)
Definition facts : DataFrame :=
  frame sale_columns [ fact 1 (int 1) (int 10); fact 2 (int 1) (int 20); fact 3 (int 2) (int 5) ].

(** Three sales, the last without a product. *)
Definition facts_with_missing_product : DataFrame :=
  frame sale_columns [ fact 1 (int 1) (int 10); fact 2 (int 1) (int 20); fact 3 NA (int 5) ].


(** The sixth row of [sales_raw]: SaleAmount "?" and every other critical
    field present. *)
Definition sale_with_question_mark : Row :=
  {| label := 5;
     cells := list_to_map (zip sales_columns
                (sale 6 "2024-01-10" 106 206 403 (int 0) (Str "?") (Str "5") "KS")) |}.

End Fixtures.

(* ================================================================== *)
(** * Part II: what the model satisfies *)
(* ================================================================== *)

Import Pandas DataScrubber DataPrep EtlToDw Cubing Invariants.

(** ** Exceptions *)

Lemma bind_Ok {A B} (m : Result A) (f : A → Result B) (b : B) :
  m ≫= f = Ok b → ∃ a, m = Ok a ∧ f a = Ok b.
Proof. destruct m as [a|e]; simpl; [eauto | discriminate]. Qed.

Ltac inv_Ok H :=
  repeat match type of H with
  | _ ≫= _ = Ok _ =>
      let a := fresh "d" in let Ha := fresh "Hd" in
      apply bind_Ok in H as (a & Ha & H)
  end.

(** ** Sorting *)

Section sorting.
Context {A : Type} (leb : A → A → bool).

Lemma insert_sorted_Permutation x l : insert_sorted leb x l ≡ₚ x :: l.
Proof.
  induction l as [|y l IH]; simpl; [done|].
  destruct (leb x y); [done|]. rewrite IH. apply Permutation_swap.
Qed.

Lemma sort_Permutation l : sort leb l ≡ₚ l.
Proof.
  induction l as [|x l IH]; simpl; [done|].
  rewrite insert_sorted_Permutation. by f_equiv.
Qed.

Lemma insert_sorted_Sorted x l :
  (∀ a b, leb a b = false → leb b a = true) →
  Sorted (le_of leb) l → Sorted (le_of leb) (insert_sorted leb x l).
Proof.
  intros Htotal. induction 1 as [|y l Hl IH Hhd]; simpl.
  - repeat constructor.
  - destruct (leb x y) eqn:Hxy.
    + constructor; [by constructor | by constructor].
    + constructor; [done|].
      destruct Hhd as [|z l Hyz]; simpl.
      * constructor. by apply Htotal.
      * destruct (leb x z); constructor; [by apply Htotal | done].
Qed.

Lemma sort_Sorted l :
  (∀ a b, leb a b = false → leb b a = true) → Sorted (le_of leb) (sort leb l).
Proof.
  intros Htotal. induction l as [|x l IH]; simpl; [constructor|].
  by apply insert_sorted_Sorted.
Qed.

End sorting.

(** ** Frames *)

Section frames.

Lemma cell_set_cell c c' v r :
  cell c' (set_cell c v r) = if decide (c = c') then v else cell c' r.
Proof.
  unfold cell, set_cell; simpl. case_decide as Hc.
  - subst. by rewrite lookup_insert_eq.
  - by rewrite lookup_insert_ne.
Qed.

Lemma column_assign_ne c k f df : c ≠ k → column k (assign c f df) = column k df.
Proof.
  intros Hck. unfold column, assign; simpl. rewrite <-list_fmap_compose.
  apply list_fmap_ext. intros _ r _. simpl. rewrite cell_set_cell. by case_decide.
Qed.

Lemma fmap_imap_ext {A B C} (g : B → C) (h : A → C) (f : nat → A → B) (l : list A) :
  (∀ i x, g (f i x) = h x) → g <$> imap f l = h <$> l.
Proof.
  intros Hf. revert f Hf. induction l as [|x l IH]; intros f Hf; simpl; [done|].
  rewrite Hf. f_equal. apply IH. intros i y. apply Hf.
Qed.

Lemma column_reset_index k df : column k (reset_index df) = column k df.
Proof. unfold column, reset_index; simpl. by apply fmap_imap_ext. Qed.

Lemma keep_first_sublist {K} `{EqDecision K} (key : Row → K) seen l :
  keep_first key seen l `sublist_of` l.
Proof.
  revert seen. induction l as [|r l IH]; intros seen; simpl; [done|].
  case_decide.
  - by apply sublist_cons.
  - by apply sublist_skip.
Qed.

Lemma keep_first_fresh {K} `{EqDecision K} (key : Row → K) seen l r :
  r ∈ keep_first key seen l → key r ∉ seen.
Proof.
  revert seen. induction l as [|r' l IH]; intros seen; simpl; [by intros ?%elem_of_nil|].
  case_decide as Hseen.
  - apply IH.
  - intros [->|Hr]%elem_of_cons; [done|].
    apply IH in Hr. set_solver.
Qed.

Lemma keep_first_NoDup {K} `{EqDecision K} (key : Row → K) seen l :
  NoDup (key <$> keep_first key seen l).
Proof.
  revert seen. induction l as [|r l IH]; intros seen; simpl; [constructor|].
  case_decide as Hseen; [apply IH|].
  rewrite fmap_cons. constructor; [|apply IH].
  intros (r' & Hkey & Hr')%list_elem_of_fmap.
  apply keep_first_fresh in Hr'. rewrite <-Hkey in Hr'. set_solver.
Qed.

End frames.

(** ** One column through the steps of a cleaner *)

Section narrowing.
Context `{Parsers, Quicksort}.
Implicit Types (k c : string) (df : DataFrame).

Lemma narrows_refl k df : narrows k df df.
Proof. by split. Qed.

Lemma narrows_trans k df1 df2 df3 :
  narrows k df1 df2 → narrows k df2 df3 → narrows k df1 df3.
Proof. intros [? ?] [? ?]. split; [congruence | by etrans]. Qed.

Lemma narrows_assign c k f df : c ≠ k → narrows k (assign c f df) df.
Proof. intros Hck. split; [done|]. by rewrite column_assign_ne. Qed.

Lemma narrows_loc k mask df : narrows k (loc mask df) df.
Proof.
  split; [done|]. apply sublist_submseteq, fmap_sublist, sublist_filter.
Qed.

Lemma narrows_dropna k subset df : narrows k (dropna subset df) df.
Proof.
  split; [done|]. apply sublist_submseteq, fmap_sublist, sublist_filter.
Qed.

Lemma narrows_reset_index k df : narrows k (reset_index df) df.
Proof. split; [done|]. by rewrite column_reset_index. Qed.

Lemma narrows_sort_values k c df out : sort_values c df = Ok out → narrows k out df.
Proof.
  unfold sort_values. destruct (same_kind _); [|discriminate].
  intros [= <-]. split; [done|]. unfold column; simpl.
  apply Permutation_submseteq, fmap_Permutation, quicksort_Permutation.
Qed.

Lemma narrows_remove_duplicate_records k df : narrows k (remove_duplicate_records df) df.
Proof. split; [done|]. apply sublist_submseteq, fmap_sublist, keep_first_sublist. Qed.

Lemma narrows_filter_column_outliers k c lo hi df :
  narrows k (filter_column_outliers c lo hi df) df.
Proof. apply narrows_loc. Qed.

Lemma narrows_format c k df :
  c ≠ k → narrows k (format_column_strings_to_upper_and_trim c df) df.
Proof. apply narrows_assign. Qed.

Lemma narrows_Forall k (P : value → Prop) df' df :
  narrows k df' df → Forall P (column k df) → Forall P (column k df').
Proof.
  intros [_ Hsub]. rewrite !Forall_forall. intros HP v Hv.
  apply HP. by eapply elem_of_submseteq.
Qed.

Lemma narrows_NoDup k df' df :
  narrows k df' df → NoDup (column k df) → NoDup (column k df').
Proof.
  intros [_ (l & Hl & Hsub)%submseteq_sublist_r] Hnd.
  rewrite Hl. by eapply sublist_NoDup.
Qed.

End narrowing.

Create HintDb narrows discriminated.
#[export] Hint Resolve narrows_refl narrows_assign narrows_loc narrows_dropna
  narrows_reset_index narrows_remove_duplicate_records narrows_filter_column_outliers
  narrows_format : narrows.

(** Chains the steps of a definition made of [if has c df then step df else df]
    and [let]. *)
Ltac narrows_step :=
  match goal with
  | |- narrows _ ?x ?x => apply narrows_refl
  | |- narrows _ (if ?b then _ else _) _ => destruct b eqn:?
  | |- narrows _ (assign _ _ ?d) _ => eapply narrows_trans; [apply narrows_assign; done|]
  | |- narrows _ (loc _ ?d) _ => eapply narrows_trans; [apply narrows_loc|]
  | |- narrows _ (dropna _ ?d) _ => eapply narrows_trans; [apply narrows_dropna|]
  | |- narrows _ (reset_index ?d) _ => eapply narrows_trans; [apply narrows_reset_index|]
  | |- narrows _ (format_column_strings_to_upper_and_trim _ ?d) _ =>
      eapply narrows_trans; [apply narrows_format; done|]
  | |- narrows _ (filter_column_outliers _ _ _ ?d) _ =>
      eapply narrows_trans; [apply narrows_filter_column_outliers|]
  | |- narrows _ (remove_duplicate_records ?d) _ =>
      eapply narrows_trans; [apply narrows_remove_duplicate_records|]
  end.
Ltac narrows_steps := repeat (narrows_step; simpl).

(** ** clean_sales_data, step by step *)

Section sales_steps.
Context `{Parsers, Quicksort}.
Implicit Types (k c : string) (df out : DataFrame).

Lemma sales_remove_duplicates_narrows k df : narrows k (sales_remove_duplicates df) df.
Proof. unfold sales_remove_duplicates. narrows_steps. Qed.

Lemma sales_coerce_narrows k df :
  k ≠ "SaleAmount" → k ≠ "Shipping" → narrows k (sales_coerce df) df.
Proof. intros. unfold sales_coerce. cbv zeta. narrows_steps. Qed.

Lemma sales_fill_narrows k df out :
  k ≠ "CampaignID" → k ≠ "Shipping" → sales_fill df = Ok out → narrows k out df.
Proof.
  intros ? ?. unfold sales_fill. cbv zeta.
  destruct (has "Shipping" _);
    [intros Hout; inv_Ok Hout; injection Hout as <- | intros [= <-]]; narrows_steps.
Qed.

Lemma sales_drop_critical_narrows k df : narrows k (sales_drop_critical df) df.
Proof. unfold sales_drop_critical. narrows_steps. Qed.

Lemma sales_format_narrows k df : k ≠ "State" → narrows k (sales_format df) df.
Proof. intros. unfold sales_format. narrows_steps. Qed.

Lemma sales_nonnegative_narrows k df : narrows k (sales_nonnegative df) df.
Proof. unfold sales_nonnegative. cbv zeta. narrows_steps. Qed.

Lemma sales_outliers_narrows k df out : sales_outliers df = Ok out → narrows k out df.
Proof.
  unfold sales_outliers. destruct (has "SaleAmount" _).
  - intros Hout. inv_Ok Hout. destruct d as [lo hi]. injection Hout as <-. narrows_steps.
  - intros [= <-]. narrows_steps.
Qed.

Lemma sales_dates_narrows k df : k ≠ "SaleDate" → narrows k (sales_dates df) df.
Proof. intros. unfold sales_dates. narrows_steps. Qed.

Lemma sales_sort_narrows k df out : sales_sort df = Ok out → narrows k out df.
Proof.
  unfold sales_sort. destruct (has "TransactionID" _).
  - intros Hout. inv_Ok Hout. injection Hout as <-.
    eapply narrows_trans; [apply narrows_reset_index|]. by eapply narrows_sort_values.
  - intros [= <-]. narrows_steps.
Qed.

Lemma log_rows_removed_Ok n df out : log_rows_removed n df = Ok out → out = df ∧ n ≠ 0%nat.
Proof. unfold log_rows_removed. case_decide; [discriminate|]. by intros [= <-]. Qed.

(** The steps of a successful run. *)
Lemma clean_sales_data_Ok df out :
  clean_sales_data df = Ok out →
  ∃ filled cut,
    sales_fill (sales_coerce (sales_remove_duplicates df)) = Ok filled ∧
    sales_outliers (sales_nonnegative (sales_format (sales_drop_critical filled))) = Ok cut ∧
    sales_sort (sales_dates cut) = Ok out ∧
    rows df ≠ [].
Proof.
  unfold clean_sales_data, sales_pipeline, sales_before_outliers. cbv zeta.
  intros Hout. inv_Ok Hout.
  apply log_rows_removed_Ok in Hout as [-> Hn]. inv_Ok Hd. injection Hd as <-.
  inv_Ok Hd1. injection Hd1 as <-.
  eexists _, _. repeat split; try done. by destruct (rows df).
Qed.

End sales_steps.

(** ** Shipping in the cleaned Sale table *)

Section sales_shipping.
Context `{Parsers, Quicksort}.

Lemma ge_Some v b : ge v (Some b) = true → ∃ x, v = Num x ∧ (b ≤ x)%Qc.
Proof.
  destruct v as [|x|s|t]; simpl; try discriminate.
  intros Hx%bool_decide_eq_true. eauto.
Qed.

Lemma le_Some v b : le v (Some b) = true → ∃ x, v = Num x ∧ (x ≤ b)%Qc.
Proof.
  destruct v as [|x|s|t]; simpl; try discriminate.
  intros Hx%bool_decide_eq_true. eauto.
Qed.

Lemma column_loc_Forall c mask (P : value → Prop) df :
  (∀ r, mask r = true → P (cell c r)) → Forall P (column c (loc mask df)).
Proof.
  intros HP. unfold column, loc; simpl. rewrite Forall_fmap, Forall_forall.
  intros r [Hr _]%list_elem_of_filter. by apply HP.
Qed.

Lemma has_true c df : has c df = true ↔ c ∈ columns df.
Proof. unfold has. apply bool_decide_eq_true. Qed.

(** After the two [>= 0] filters of step 5 every Shipping cell is a
    non-negative number. *)
Lemma sales_nonnegative_shipping df :
  "Shipping" ∈ columns df →
  Forall (λ v, ∃ x, v = Num x ∧ (0 ≤ x)%Qc) (column "Shipping" (sales_nonnegative df)).
Proof.
  intros Hcol. unfold sales_nonnegative. cbv zeta.
  destruct (has "Shipping" _) eqn:Hhas.
  - apply column_loc_Forall. intros r. apply ge_Some.
  - apply not_true_iff_false in Hhas. contradict Hhas. apply has_true.
    by destruct (has "SaleAmount" df).
Qed.

Lemma column_assign_eq c f df : column c (assign c f df) = f <$> column c df.
Proof.
  unfold column, assign; simpl. rewrite <-!list_fmap_compose.
  apply list_fmap_ext. intros _ r _. simpl. rewrite cell_set_cell. by case_decide.
Qed.

Lemma labels_assign c f df : labels (assign c f df) = labels df.
Proof. unfold labels, assign; simpl. by rewrite <-list_fmap_compose. Qed.

Lemma Qc_leb_total a b : Qc_leb a b = false → Qc_leb b a = true.
Proof.
  unfold Qc_leb. rewrite bool_decide_eq_false, bool_decide_eq_true.
  intros Hab%Qcnot_le_lt. by apply Qclt_le_weak.
Qed.

Lemma Sorted_Qc_leb (s : list Qc) : Sorted (le_of Qc_leb) s → Sorted Qcle s.
Proof.
  induction 1 as [|x s Hs IH Hhd]; constructor; [done|].
  destruct Hhd as [|y s Hxy]; constructor. by apply bool_decide_eq_true in Hxy.
Qed.

(** The median that [s.median()] returns is the median of the numbers of
    the column. *)
Lemma median_is_median vs m : median vs = Ok m → is_median m (numbers vs).
Proof.
  unfold median, numeric_column. destruct (forallb is_numeric vs); [|discriminate].
  simpl. set (xs := numbers vs). set (s := sort Qc_leb xs).
  assert (s ≡ₚ xs) as Hperm by apply sort_Permutation.
  assert (Sorted Qcle s) as Hsorted by apply Sorted_Qc_leb, sort_Sorted, Qc_leb_total.
  intros [= <-]. case_decide as Hn.
  { simpl. apply length_zero_iff_nil in Hn. rewrite Hn in Hperm.
    by apply Permutation_nil_l in Hperm. }
  assert (length s / 2 < length s)%nat as Hmid by (apply Nat.div_lt; lia).
  destruct (Nat.even (length s)) eqn:Heven; simpl; exists s; (split; [done|]); (split; [done|]).
  - right. split; [done|].
    exists (s !!! (length s / 2 - 1)%nat), (s !!! (length s / 2)%nat).
    split; [|split; [|done]]; apply list_lookup_lookup_total_lt; lia.
  - left. split; [by rewrite <-Nat.negb_even, Heven|].
    by apply list_lookup_lookup_total_lt.
Qed.

(** Step 3 keeps every row and writes the median where Shipping is missing. *)
Lemma sales_fill_shipping df filled :
  "Shipping" ∈ columns df →
  sales_fill df = Ok filled →
  ∃ m, median (column "Shipping" df) = Ok m ∧
       labels filled = labels df ∧
       column "Shipping" filled = fillna (of_float m) <$> column "Shipping" df.
Proof.
  intros Hcol. unfold sales_fill. cbv zeta.
  set (campaign := if has "CampaignID" df then _ else df).
  assert (columns campaign = columns df ∧ labels campaign = labels df ∧
          column "Shipping" campaign = column "Shipping" df) as (Hcols & Hlabels & Hshipping).
  { unfold campaign. destruct (has "CampaignID" df); [|done].
    split; [done|]. split; [apply labels_assign | by apply column_assign_ne]. }
  assert (has "Shipping" campaign = true) as -> by (apply has_true; by rewrite Hcols).
  intros Hfilled. inv_Ok Hfilled. injection Hfilled as <-.
  exists d. rewrite <-Hshipping, <-Hlabels. split; [done|].
  split; [apply labels_assign | apply column_assign_eq].
Qed.

(** The two [>= 0] filters of step 5 keep exactly the rows whose SaleAmount
    (when the table has the column) and Shipping are numbers that are not
    negative. *)
Lemma sales_nonnegative_rows df r :
  "Shipping" ∈ columns df →
  r ∈ rows (sales_nonnegative df) ↔
  r ∈ rows df ∧
  (∃ x, cell "Shipping" r = Num x ∧ (0 ≤ x)%Qc) ∧
  ("SaleAmount" ∈ columns df → ∃ y, cell "SaleAmount" r = Num y ∧ (0 ≤ y)%Qc).
Proof.
  intros Hcol. unfold sales_nonnegative. cbv zeta.
  assert (∀ v, ge v (Some 0%Qc) = true ↔ ∃ x, v = Num x ∧ (0 ≤ x)%Qc) as Hge.
  { intros v. split; [apply ge_Some|]. intros (x & -> & Hx). by apply bool_decide_eq_true. }
  destruct (has "SaleAmount" df) eqn:Hamount.
  - assert (has "Shipping" (loc (λ r, ge (cell "SaleAmount" r) (Some 0%Qc)) df) = true) as ->
      by by apply has_true.
    unfold loc; simpl. rewrite !list_elem_of_filter, !Hge. apply has_true in Hamount.
    split.
    + intros (Hshipping & Hsale & Hr). by repeat split.
    + intros (Hr & Hshipping & Hsale). split; [done|]. split; [by apply Hsale | done].
  - assert (has "Shipping" df = true) as -> by by apply has_true.
    unfold loc; simpl. rewrite list_elem_of_filter, Hge.
    apply not_true_iff_false in Hamount. rewrite has_true in Hamount.
    split.
    + intros (Hshipping & Hr). by repeat split.
    + intros (Hr & Hshipping & _). by split.
Qed.

(** C10: in a table returned by clean_sales_data that has the Shipping
    column, every Shipping value is a number (not missing) and is not
    negative.  On the way there, step 3 keeps every row and writes the
    median of the Shipping column, as it stands after coercion, into the
    cells where Shipping is missing: the middle one of its numbers in
    ascending order, or the mean of the two middle ones, and NaN (nothing
    filled) when the column has no number.  The [>= 0] filters of step 5
    then keep exactly the rows whose Shipping, and SaleAmount, are numbers
    that are not negative: a row whose Shipping is still missing or is
    negative goes there. *)
Theorem clean_sales_data_shipping_nonnegative df out :
  clean_sales_data df = Ok out →
  "Shipping" ∈ columns out →
  ∃ m filled,
    median (column "Shipping" (sales_coerce (sales_remove_duplicates df))) = Ok m ∧
    is_median m (numbers (column "Shipping" (sales_coerce (sales_remove_duplicates df)))) ∧
    sales_fill (sales_coerce (sales_remove_duplicates df)) = Ok filled ∧
    labels filled = labels (sales_coerce (sales_remove_duplicates df)) ∧
    column "Shipping" filled
    = fillna (of_float m) <$> column "Shipping" (sales_coerce (sales_remove_duplicates df)) ∧
    (∀ r, r ∈ rows (sales_nonnegative (sales_format (sales_drop_critical filled))) ↔
          r ∈ rows (sales_format (sales_drop_critical filled)) ∧
          (∃ x, cell "Shipping" r = Num x ∧ (0 ≤ x)%Qc) ∧
          ("SaleAmount" ∈ columns out → ∃ y, cell "SaleAmount" r = Num y ∧ (0 ≤ y)%Qc)) ∧
    (∀ r, r ∈ rows out → ∃ x, cell "Shipping" r = Num x ∧ (0 ≤ x)%Qc).
Proof.
  intros (filled & cut & Hfill & Hcut & Hsort & _)%clean_sales_data_Ok Hcol.
  set (coerced := sales_coerce (sales_remove_duplicates df)) in *.
  set (formatted := sales_format (sales_drop_critical filled)) in *.
  set (kept := sales_nonnegative formatted) in *.
  assert (narrows "" out kept) as Hnarrow.
  { eapply narrows_trans; [by eapply sales_sort_narrows|].
    eapply narrows_trans; [by apply sales_dates_narrows|].
    by eapply sales_outliers_narrows. }
  assert (columns out = columns formatted) as Hformatted.
  { rewrite (proj1 Hnarrow). apply (sales_nonnegative_narrows ""). }
  assert (columns formatted = columns coerced) as Hcoerced.
  { unfold formatted.
    rewrite (proj1 (sales_format_narrows "" _ ltac:(done))).
    rewrite (proj1 (sales_drop_critical_narrows "" _)).
    apply (sales_fill_narrows "" _ _ ltac:(done) ltac:(done) Hfill). }
  assert ("Shipping" ∈ columns coerced) as Hcol' by by rewrite <-Hcoerced, <-Hformatted.
  destruct (sales_fill_shipping _ _ Hcol' Hfill) as (m & Hmedian & Hlabels & Hshipping).
  exists m, filled. split; [done|]. split; [by apply median_is_median|].
  split; [done|]. split; [done|]. split; [done|]. split.
  - intros r. rewrite Hformatted. apply sales_nonnegative_rows. by rewrite <-Hformatted.
  - assert (narrows "Shipping" out kept) as Hnarrow'.
    { eapply narrows_trans; [by eapply sales_sort_narrows|].
      eapply narrows_trans; [by apply sales_dates_narrows|].
      by eapply sales_outliers_narrows. }
    assert ("Shipping" ∈ columns formatted) as Hcol'' by by rewrite <-Hformatted.
    pose proof (narrows_Forall _ _ _ _ Hnarrow' (sales_nonnegative_shipping _ Hcol''))
      as Hall.
    rewrite Forall_forall in Hall. intros r Hr. apply Hall.
    unfold column. by apply list_elem_of_fmap_2.
Qed.

End sales_shipping.

Section sales_shipping_example.
Import Fixtures.

(** The run on [sales_missing_shipping]: "free" becomes 0, the numbers of the
    column are 9, 2, -3 and 0, their median is 1 and fills the missing
    Shipping of the second sale; the fourth sale, with -3, is removed. *)
Lemma clean_sales_data_shipping_nonnegative_witness :
  clean_sales_data sales_missing_shipping = Ok sales_missing_shipping_prepared ∧
  median (column "Shipping" (sales_coerce (sales_remove_duplicates sales_missing_shipping)))
  = Ok (Some (Q2Qc 1)) ∧
  column "Shipping" sales_missing_shipping_prepared = [int 9; int 1; int 2; int 0] ∧
  ∃ m filled,
    median (column "Shipping" (sales_coerce (sales_remove_duplicates sales_missing_shipping)))
    = Ok m ∧
    is_median m
      (numbers (column "Shipping"
                  (sales_coerce (sales_remove_duplicates sales_missing_shipping)))) ∧
    sales_fill (sales_coerce (sales_remove_duplicates sales_missing_shipping)) = Ok filled ∧
    labels filled = labels (sales_coerce (sales_remove_duplicates sales_missing_shipping)) ∧
    column "Shipping" filled
    = fillna (of_float m)
        <$> column "Shipping" (sales_coerce (sales_remove_duplicates sales_missing_shipping)) ∧
    (∀ r, r ∈ rows (sales_nonnegative (sales_format (sales_drop_critical filled))) ↔
          r ∈ rows (sales_format (sales_drop_critical filled)) ∧
          (∃ x, cell "Shipping" r = Num x ∧ (0 ≤ x)%Qc) ∧
          ("SaleAmount" ∈ columns sales_missing_shipping_prepared →
           ∃ y, cell "SaleAmount" r = Num y ∧ (0 ≤ y)%Qc)) ∧
    (∀ r, r ∈ rows sales_missing_shipping_prepared →
          ∃ x, cell "Shipping" r = Num x ∧ (0 ≤ x)%Qc).
Proof.
  split; [compute_done|]. split; [compute_done|]. split; [compute_done|].
  apply (clean_sales_data_shipping_nonnegative
           sales_missing_shipping sales_missing_shipping_prepared); compute_done.
Defined.

End sales_shipping_example.

(** ** clean_customers_data and clean_products_data, step by step *)

Section entity_steps.
Context `{Parsers, Quicksort}.
Implicit Types (k c : string) (df out : DataFrame).

Lemma iqr_filter_narrows k c df out :
  ('(lower, upper_bound) ← iqr_bounds (column c df);
   Ok (loc (λ r, ge (cell c r) (max0 lower) && le (cell c r) upper_bound) df)) = Ok out →
  narrows k out df.
Proof.
  intros Hout. inv_Ok Hout. destruct d as [lo hi]. injection Hout as <-. narrows_steps.
Qed.

Lemma customers_format_narrows k df :
  k ≠ "Name" → k ≠ "Region" → narrows k (customers_format df) df.
Proof. intros. unfold customers_format. cbv zeta. narrows_steps. Qed.

Lemma customers_fills_narrows k df :
  k ≠ "Region" → k ≠ "NumberOfPurshases" → k ≠ "ShoppingFrequency" →
  narrows k (customers_missing df) df.
Proof. intros. unfold customers_missing. cbv zeta. narrows_steps. Qed.

Lemma customers_dates_narrows k df : k ≠ "JoinDate" → narrows k (customers_dates df) df.
Proof. intros. unfold customers_dates. narrows_steps. Qed.

Lemma customers_outliers_narrows k df out :
  customers_outliers df = Ok out → narrows k out df.
Proof.
  unfold customers_outliers. destruct (has "NumberOfPurshases" _).
  - cbv zeta. apply iqr_filter_narrows.
  - intros [= <-]. narrows_steps.
Qed.

Lemma customers_sort_narrows k df out : customers_sort df = Ok out → narrows k out df.
Proof.
  unfold customers_sort. destruct (has "CustomerID" _).
  - intros Hout. inv_Ok Hout. injection Hout as <-.
    eapply narrows_trans; [apply narrows_reset_index|]. by eapply narrows_sort_values.
  - intros [= <-]. narrows_steps.
Qed.

Lemma products_format_narrows k df :
  k ≠ "ProductName" → k ≠ "Category" → narrows k (products_format df) df.
Proof. intros. unfold products_format. cbv zeta. narrows_steps. Qed.

Lemma products_outliers_narrows k df out :
  products_outliers df = Ok out → narrows k out df.
Proof.
  unfold products_outliers. destruct (has "Price" _).
  - cbv zeta. intros Hout. apply (iqr_filter_narrows k) in Hout.
    eapply narrows_trans; [exact Hout|]. narrows_steps.
  - intros [= <-]. narrows_steps.
Qed.

Lemma products_sort_narrows k df out : products_sort df = Ok out → narrows k out df.
Proof.
  unfold products_sort. destruct (has "ProductID" _).
  - intros Hout. inv_Ok Hout. injection Hout as <-.
    eapply narrows_trans; [apply narrows_reset_index|]. by eapply narrows_sort_values.
  - intros [= <-]. narrows_steps.
Qed.

(** The steps of a successful run. *)
Lemma clean_customers_data_Ok df out :
  clean_customers_data df = Ok out →
  ∃ unique cut,
    customers_remove_duplicates df = Ok unique ∧
    customers_outliers (customers_dates (customers_missing (customers_format unique)))
      = Ok cut ∧
    customers_sort cut = Ok out ∧
    rows df ≠ [].
Proof.
  unfold clean_customers_data, customers_pipeline. cbv zeta. intros Hout. inv_Ok Hout.
  apply log_rows_removed_Ok in Hout as [-> Hn]. inv_Ok Hd.
  eexists _, _. repeat split; try done. by destruct (rows df).
Qed.

Lemma clean_products_data_Ok df out :
  clean_products_data df = Ok out →
  ∃ unique filled cut,
    products_remove_duplicates df = Ok unique ∧
    products_missing (products_format unique) = Ok filled ∧
    products_outliers filled = Ok cut ∧
    products_sort cut = Ok out ∧
    rows df ≠ [].
Proof.
  unfold clean_products_data, products_pipeline. cbv zeta. intros Hout. inv_Ok Hout.
  apply log_rows_removed_Ok in Hout as [-> Hn]. inv_Ok Hd.
  eexists _, _, _. repeat split; try done. by destruct (rows df).
Qed.

End entity_steps.

(** ** Primary keys of the cleaned tables *)

Section primary_keys.
Context `{Parsers, Quicksort}.
Implicit Types (k c : string) (df out : DataFrame).

Lemma drop_duplicates_key k df out :
  drop_duplicates [k] df = Ok out → k ∈ columns out ∧ NoDup (column k out).
Proof.
  unfold drop_duplicates. case_decide as Hsub; [|discriminate]. intros [= <-]. simpl.
  split; [apply Hsub; set_solver|].
  pose proof (keep_first_NoDup (tuple [k]) [] (rows df)) as Hnd.
  unfold column; simpl.
  apply (NoDup_fmap_1 (λ v, [v])). by rewrite <-list_fmap_compose.
Qed.

Lemma existing_elem c critical df :
  c ∈ critical → c ∈ columns df → c ∈ existing critical df.
Proof. intros. unfold existing. by apply list_elem_of_filter. Qed.

Lemma dropna_not_NA c subset df :
  c ∈ subset → Forall (λ v, v ≠ NA) (column c (dropna subset df)).
Proof.
  intros Hc. unfold column, dropna; simpl. rewrite Forall_fmap, Forall_forall.
  intros r [Hr _]%list_elem_of_filter. rewrite Forall_forall in Hr. by apply Hr.
Qed.

Lemma Forall_not_NA (vs : list value) : Forall (λ v, v ≠ NA) vs ↔ NA ∉ vs.
Proof. rewrite Forall_forall. split; [intros Hvs Hin; by eapply Hvs | by intros Hvs v Hv ->]. Qed.

Lemma customers_missing_key df :
  "CustomerID" ∈ columns df →
  Forall (λ v, v ≠ NA) (column "CustomerID" (customers_missing df)).
Proof.
  intros Hcol.
  set (dropped := dropna (existing customers_critical_columns df) df).
  assert (narrows "CustomerID" (customers_missing df) dropped) as Hnarrow.
  { unfold customers_missing. cbv zeta. fold dropped. narrows_steps. }
  eapply narrows_Forall; [done|].
  apply dropna_not_NA, existing_elem; [|done].
  unfold customers_critical_columns. set_solver.
Qed.

Lemma products_missing_narrows k df out :
  k ≠ "Category" → k ≠ "Price" → products_missing df = Ok out → narrows k out df.
Proof.
  intros ? ?. unfold products_missing. cbv zeta.
  destruct (has "Price" _);
    [intros Hout; inv_Ok Hout; injection Hout as <- | intros [= <-]]; narrows_steps.
Qed.

Lemma products_missing_key df out :
  "ProductID" ∈ columns df → products_missing df = Ok out →
  Forall (λ v, v ≠ NA) (column "ProductID" out).
Proof.
  intros Hcol Hout.
  set (dropped := dropna (existing products_critical_columns df) df).
  assert (narrows "ProductID" out dropped) as Hnarrow.
  { revert Hout. unfold products_missing. cbv zeta. fold dropped.
    destruct (has "Price" _);
      [intros Hout; inv_Ok Hout; injection Hout as <- | intros [= <-]]; narrows_steps. }
  eapply narrows_Forall; [done|].
  apply dropna_not_NA, existing_elem; [|done].
  unfold products_critical_columns. set_solver.
Qed.

Lemma clean_customers_data_key df out :
  clean_customers_data df = Ok out →
  "CustomerID" ∈ columns out ∧ NoDup (column "CustomerID" out) ∧ NA ∉ column "CustomerID" out.
Proof.
  intros (unique & cut & Hunique & Hcut & Hsort & _)%clean_customers_data_Ok.
  apply drop_duplicates_key in Hunique as [Hcol Hnd].
  set (formatted := customers_format unique) in *.
  assert (narrows "CustomerID" formatted unique) as Hformat
    by by apply customers_format_narrows.
  assert (narrows "CustomerID" out (customers_missing formatted)) as Hrest.
  { eapply narrows_trans; [by eapply customers_sort_narrows|].
    eapply narrows_trans; [by eapply customers_outliers_narrows|].
    by apply customers_dates_narrows. }
  assert (narrows "CustomerID" out unique) as Hall.
  { eapply narrows_trans; [done|]. eapply narrows_trans; [|done].
    by apply customers_fills_narrows. }
  split; [by rewrite (proj1 Hall)|]. split; [by eapply narrows_NoDup|].
  apply Forall_not_NA. eapply narrows_Forall; [exact Hrest|].
  apply customers_missing_key. by rewrite (proj1 Hformat).
Qed.

Lemma clean_products_data_key df out :
  clean_products_data df = Ok out →
  "ProductID" ∈ columns out ∧ NoDup (column "ProductID" out) ∧ NA ∉ column "ProductID" out.
Proof.
  intros (unique & filled & cut & Hunique & Hfill & Hcut & Hsort & _)%clean_products_data_Ok.
  apply drop_duplicates_key in Hunique as [Hcol Hnd].
  set (formatted := products_format unique) in *.
  assert (narrows "ProductID" formatted unique) as Hformat
    by by apply products_format_narrows.
  assert (narrows "ProductID" out filled) as Hrest.
  { eapply narrows_trans; [by eapply products_sort_narrows|].
    by eapply products_outliers_narrows. }
  assert (narrows "ProductID" out unique) as Hall.
  { eapply narrows_trans; [done|]. eapply narrows_trans; [|done].
    by eapply products_missing_narrows. }
  split; [by rewrite (proj1 Hall)|]. split; [by eapply narrows_NoDup|].
  apply Forall_not_NA. eapply narrows_Forall; [exact Hrest|].
  eapply products_missing_key; [|done]. by rewrite (proj1 Hformat).
Qed.

Lemma clean_sales_data_key df out :
  clean_sales_data df = Ok out →
  "TransactionID" ∈ columns out → NA ∉ column "TransactionID" out.
Proof.
  intros (filled & cut & Hfill & Hcut & Hsort & _)%clean_sales_data_Ok Hcol.
  set (dropped := sales_drop_critical filled) in *.
  assert (narrows "TransactionID" out dropped) as Hnarrow.
  { eapply narrows_trans; [by eapply sales_sort_narrows|].
    eapply narrows_trans; [by apply sales_dates_narrows|].
    eapply narrows_trans; [by eapply sales_outliers_narrows|].
    eapply narrows_trans; [by eapply sales_nonnegative_narrows|].
    by apply sales_format_narrows. }
  apply Forall_not_NA. eapply narrows_Forall; [done|].
  apply dropna_not_NA, existing_elem.
  - unfold sales_critical_columns. set_solver.
  - rewrite (proj1 Hnarrow) in Hcol. by unfold dropped in Hcol.
Qed.

End primary_keys.

(** C1: the cleaned Customer and Product tables have a primary-key column
    with no repeated and no missing value.  The cleaned Sale table has no
    missing TransactionID; its rows were deduplicated on the whole row, so
    nothing is said about repeated TransactionIDs. *)
Theorem cleaned_primary_keys `{Parsers, Quicksort} :
  (∀ df out, clean_customers_data df = Ok out →
     "CustomerID" ∈ columns out ∧
     NoDup (column "CustomerID" out) ∧ NA ∉ column "CustomerID" out) ∧
  (∀ df out, clean_products_data df = Ok out →
     "ProductID" ∈ columns out ∧
     NoDup (column "ProductID" out) ∧ NA ∉ column "ProductID" out) ∧
  (∀ df out, clean_sales_data df = Ok out →
     "TransactionID" ∈ columns out → NA ∉ column "TransactionID" out).
Proof.
  split; [|split].
  - apply clean_customers_data_key.
  - apply clean_products_data_key.
  - apply clean_sales_data_key.
Qed.

Section primary_keys_examples.
Import Fixtures.

Lemma cleaned_primary_keys_witness :
  (NoDup (column "CustomerID" customers_prepared) ∧
   NA ∉ column "CustomerID" customers_prepared) ∧
  (NoDup (column "ProductID" products_prepared) ∧
   NA ∉ column "ProductID" products_prepared) ∧
  NA ∉ column "TransactionID" sales_prepared.
Proof.
  destruct (cleaned_primary_keys (H := parsers)) as (Hcustomers & Hproducts & Hsales).
  split; [|split].
  - apply (Hcustomers customers_raw). compute_done.
  - apply (Hproducts products_raw). compute_done.
  - apply (Hsales sales_raw); compute_done.
Defined.

(** Two sales with the same TransactionID and different customers are not
    equal as rows: both are in the cleaned table. *)
Lemma clean_sales_data_repeated_key :
  clean_sales_data sales_repeated_id = Ok sales_repeated_id_prepared ∧
  column "TransactionID" sales_repeated_id_prepared = [int 1; int 1] ∧
  ¬ NoDup (column "TransactionID" sales_repeated_id_prepared).
Proof. repeat split; compute_done. Qed.

End primary_keys_examples.

(** ** The IQR rule on SaleAmount *)

Section sales_iqr.
Context `{Parsers, Quicksort}.

Lemma sales_nonnegative_amount df :
  "SaleAmount" ∈ columns df →
  Forall (λ v, ∃ x, v = Num x ∧ (0 ≤ x)%Qc) (column "SaleAmount" (sales_nonnegative df)).
Proof.
  intros Hcol%has_true. unfold sales_nonnegative. cbv zeta. rewrite Hcol.
  set (kept := loc _ df).
  assert (Forall (λ v, ∃ x, v = Num x ∧ (0 ≤ x)%Qc) (column "SaleAmount" kept)) as Hkept.
  { apply column_loc_Forall. intros r. apply ge_Some. }
  destruct (has "Shipping" kept); [|done].
  eapply narrows_Forall; [apply narrows_loc | done].
Qed.

Lemma iqr_bounds_Ok vs lo hi :
  iqr_bounds vs = Ok (lo, hi) →
  ∃ Q1 Q3,
    quantile (Q2Qc (1 # 4)) vs = Ok Q1 ∧ quantile (Q2Qc (3 # 4)) vs = Ok Q3 ∧
    lo = fsub Q1 (fmul (Some one_and_a_half) (fsub Q3 Q1)) ∧
    hi = fadd Q3 (fmul (Some one_and_a_half) (fsub Q3 Q1)).
Proof.
  unfold iqr_bounds. intros Hb. inv_Ok Hb. injection Hb as <- <-.
  eexists _, _. by repeat split.
Qed.

(** What [filter_column_outliers] keeps, for bounds made from two quartiles. *)
Lemma sales_outliers_bounded df out :
  "SaleAmount" ∈ columns df →
  sales_outliers df = Ok out →
  ∃ Q1 Q3,
    quantile (Q2Qc (1 # 4)) (column "SaleAmount" df) = Ok Q1 ∧
    quantile (Q2Qc (3 # 4)) (column "SaleAmount" df) = Ok Q3 ∧
    Forall (λ v, ∃ x q1 q3, v = Num x ∧ Q1 = Some q1 ∧ Q3 = Some q3 ∧
                 (sub64 q1 (mul64 one_and_a_half (sub64 q3 q1)) ≤ x)%Qc ∧
                 (x ≤ add64 q3 (mul64 one_and_a_half (sub64 q3 q1)))%Qc)
           (column "SaleAmount" out).
Proof.
  intros Hcol%has_true. unfold sales_outliers. rewrite Hcol.
  intros Hout. inv_Ok Hout. destruct d as [lo hi]. injection Hout as <-.
  apply iqr_bounds_Ok in Hd as (Q1 & Q3 & HQ1 & HQ3 & -> & ->).
  exists Q1, Q3. split; [done|]. split; [done|].
  apply column_loc_Forall. intros r [Hge Hle]%andb_true_iff.
  destruct Q1 as [q1|], Q3 as [q3|];
    try (by destruct (cell "SaleAmount" r); simpl in Hge; discriminate).
  simpl in Hge, Hle. apply ge_Some in Hge as (x & Hx & Hlo).
  apply le_Some in Hle as (x' & Hx' & Hhi). rewrite Hx in Hx'. injection Hx' as <-.
  exists x, q1, q3. by repeat split.
Qed.

(** C5: every SaleAmount of the cleaned Sale table lies between
    Q1 - 1.5 IQR and Q3 + 1.5 IQR, bounds computed as the code computes
    them, in float64 ([sub64], [mul64], [add64]), where Q1 and Q3 are the
    quartiles of the SaleAmount column as it stands when the quartiles are
    taken: after deduplication, coercion, the critical-column drop and the
    removal of negative values (all of its values are non-negative numbers),
    and before the outlier filter removes rows. *)
Theorem sale_amount_within_iqr_bounds df out :
  clean_sales_data df = Ok out →
  "SaleAmount" ∈ columns out →
  ∃ before Q1 Q3,
    sales_before_outliers df = Ok before ∧
    Forall (λ v, ∃ x, v = Num x ∧ (0 ≤ x)%Qc) (column "SaleAmount" before) ∧
    quantile (Q2Qc (1 # 4)) (column "SaleAmount" before) = Ok Q1 ∧
    quantile (Q2Qc (3 # 4)) (column "SaleAmount" before) = Ok Q3 ∧
    ∀ r, r ∈ rows out →
      ∃ x q1 q3, cell "SaleAmount" r = Num x ∧ Q1 = Some q1 ∧ Q3 = Some q3 ∧
                 (sub64 q1 (mul64 one_and_a_half (sub64 q3 q1)) ≤ x)%Qc ∧
                 (x ≤ add64 q3 (mul64 one_and_a_half (sub64 q3 q1)))%Qc.
Proof.
  intros (filled & cut & Hfill & Hcut & Hsort & _)%clean_sales_data_Ok Hcol.
  set (formatted := sales_format (sales_drop_critical filled)) in *.
  assert (narrows "SaleAmount" out cut) as Hnarrow.
  { eapply narrows_trans; [by eapply sales_sort_narrows|]. by apply sales_dates_narrows. }
  assert ("SaleAmount" ∈ columns formatted) as Hcol'.
  { rewrite (proj1 Hnarrow) in Hcol.
    rewrite (proj1 (sales_outliers_narrows "SaleAmount" _ _ Hcut)) in Hcol.
    by rewrite (proj1 (sales_nonnegative_narrows "SaleAmount" _)) in Hcol. }
  assert ("SaleAmount" ∈ columns (sales_nonnegative formatted)) as Hcol''
    by by rewrite (proj1 (sales_nonnegative_narrows "SaleAmount" _)).
  destruct (sales_outliers_bounded _ _ Hcol'' Hcut) as (Q1 & Q3 & HQ1 & HQ3 & Hall).
  exists (sales_nonnegative formatted), Q1, Q3.
  split; [unfold sales_before_outliers; cbv zeta; by rewrite Hfill|].
  split; [by apply sales_nonnegative_amount|]. split; [done|]. split; [done|].
  pose proof (narrows_Forall _ _ _ _ Hnarrow Hall) as Hout.
  rewrite Forall_forall in Hout. intros r Hr. apply Hout.
  unfold column. by apply list_elem_of_fmap_2.
Qed.

End sales_iqr.

Section sales_iqr_examples.
Import Fixtures.

(** On [sales_raw] the quartiles are taken of 10, 10, 10, 12, 100: Q1 = 10,
    Q3 = 12, and the four amounts kept lie in [7, 15]. *)
Lemma sale_amount_within_iqr_bounds_witness :
  clean_sales_data sales_raw = Ok sales_prepared ∧
  ∃ before Q1 Q3,
    sales_before_outliers sales_raw = Ok before ∧
    Forall (λ v, ∃ x, v = Num x ∧ (0 ≤ x)%Qc) (column "SaleAmount" before) ∧
    quantile (Q2Qc (1 # 4)) (column "SaleAmount" before) = Ok Q1 ∧
    quantile (Q2Qc (3 # 4)) (column "SaleAmount" before) = Ok Q3 ∧
    ∀ r, r ∈ rows sales_prepared →
      ∃ x q1 q3, cell "SaleAmount" r = Num x ∧ Q1 = Some q1 ∧ Q3 = Some q3 ∧
                 (sub64 q1 (mul64 one_and_a_half (sub64 q3 q1)) ≤ x)%Qc ∧
                 (x ≤ add64 q3 (mul64 one_and_a_half (sub64 q3 q1)))%Qc.
Proof.
  split; [compute_done|].
  apply (sale_amount_within_iqr_bounds sales_raw sales_prepared); compute_done.
Defined.

(** The quartiles of the cleaned table itself are another matter: its
    amounts are 10, 10, 10, 12, so Q1 = 10, Q3 = 10.5, the bounds are 9.25
    and 11.25, and the amount 12 of its fourth row lies outside them. *)
Lemma sale_amount_outside_iqr_of_cleaned_table :
  clean_sales_data sales_raw = Ok sales_prepared ∧
  quantile (Q2Qc (1 # 4)) (column "SaleAmount" sales_prepared) = Ok (Some (Q2Qc 10)) ∧
  quantile (Q2Qc (3 # 4)) (column "SaleAmount" sales_prepared) = Ok (Some (Q2Qc (21 # 2))) ∧
  iqr_bounds (column "SaleAmount" sales_prepared)
    = Ok (Some (Q2Qc (37 # 4)), Some (Q2Qc (45 # 4))) ∧
  column "SaleAmount" sales_prepared !! 3%nat = Some (Num (Q2Qc 12)) ∧
  ¬ (Q2Qc 12 ≤ Q2Qc (45 # 4))%Qc.
Proof. repeat split; compute_done. Qed.

(** Rounding decides who stays.  On the amounts 3.0, 4.2, 4.4 and 4.8 the
    exact lower bound would be 3; computed in float64 it is the next float
    above 3, and the sale of 3.0 is removed. *)
Lemma sale_amount_bounds_are_rounded :
  (before ← sales_before_outliers sales_with_fractions;
   iqr_bounds (column "SaleAmount" before))
  = Ok (Some (Q2Qc (6755399441055746 # 2251799813685248)),
        Some (Q2Qc (6079859496950169 # 1125899906842624))) ∧
  (out ← clean_sales_data sales_with_fractions; Ok (column "SaleAmount" out))
  = Ok [Num (round64 (Q2Qc (21 # 5))); Num (round64 (Q2Qc (22 # 5)));
        Num (round64 (Q2Qc (24 # 5)))].
Proof. split; compute_done. Qed.

End sales_iqr_examples.

(** ** One row through the steps of a cleaner *)

Section tracing.
Context `{Parsers, Quicksort}.
Implicit Types (k c : string) (df out : DataFrame).

Lemma traces_refl k df : traces k df df.
Proof. split; [done|]. intros r Hr. by exists r. Qed.

Lemma traces_trans k df1 df2 df3 : traces k df1 df2 → traces k df2 df3 → traces k df1 df3.
Proof.
  intros [Hc1 H1] [Hc2 H2]. split; [congruence|].
  intros r1 (r2 & Hr2 & Hl2 & Hk2)%H1. apply H2 in Hr2 as (r3 & Hr3 & Hl3 & Hk3).
  exists r3. split; [done|]. split; congruence.
Qed.

Lemma traces_sublist k df' df :
  columns df' = columns df → rows df' `sublist_of` rows df → traces k df' df.
Proof.
  intros Hcols Hsub. split; [done|]. intros r Hr. exists r. split; [|done].
  by eapply elem_of_sublist.
Qed.

Lemma traces_assign c k f df : c ≠ k → traces k (assign c f df) df.
Proof.
  intros Hck. split; [done|]. unfold assign; simpl.
  intros r' (r & -> & Hr)%list_elem_of_fmap. exists r. split; [done|]. split; [done|].
  rewrite cell_set_cell. by case_decide.
Qed.

Lemma traces_loc k mask df : traces k (loc mask df) df.
Proof. apply traces_sublist; [done|]. apply sublist_filter. Qed.

Lemma traces_dropna k subset df : traces k (dropna subset df) df.
Proof. apply traces_sublist; [done|]. apply sublist_filter. Qed.

Lemma traces_remove_duplicate_records k df : traces k (remove_duplicate_records df) df.
Proof. apply traces_sublist; [done|]. apply keep_first_sublist. Qed.

Lemma traces_labels k df' df : traces k df' df → labels df' ⊆ labels df.
Proof.
  intros [_ Hrows] n (r' & -> & Hr')%list_elem_of_fmap.
  apply Hrows in Hr' as (r & Hr & -> & _). by apply list_elem_of_fmap_2.
Qed.

End tracing.

Ltac traces_step :=
  match goal with
  | |- traces _ ?x ?x => apply traces_refl
  | |- traces _ (if ?b then _ else _) _ => destruct b eqn:?
  | |- traces _ (assign _ _ ?d) _ => eapply traces_trans; [apply traces_assign; done|]
  | |- traces _ (loc _ ?d) _ => eapply traces_trans; [apply traces_loc|]
  | |- traces _ (dropna _ ?d) _ => eapply traces_trans; [apply traces_dropna|]
  | |- traces _ (format_column_strings_to_upper_and_trim _ ?d) _ =>
      eapply traces_trans; [apply traces_assign; done|]
  | |- traces _ (filter_column_outliers _ _ _ ?d) _ =>
      eapply traces_trans; [apply traces_loc|]
  | |- traces _ (remove_duplicate_records ?d) _ =>
      eapply traces_trans; [apply traces_remove_duplicate_records|]
  end.
Ltac traces_steps := repeat (traces_step; simpl).

(** ** A Sale row whose SaleAmount is "?" *)

Section sales_sentinel.
Context `{Parsers, Quicksort}.
Implicit Types (k c : string) (df out : DataFrame).

Lemma NoDup_labels_eq (l : list Row) r1 r2 :
  NoDup (label <$> l) → r1 ∈ l → r2 ∈ l → label r1 = label r2 → r1 = r2.
Proof.
  induction l as [|r l IH]; [by intros _ ?%elem_of_nil|].
  rewrite fmap_cons, NoDup_cons. intros [Hr Hnd] H1 H2 Heq.
  apply elem_of_cons in H1 as [->|H1], H2 as [->|H2]; try done.
  - contradict Hr. rewrite Heq. by apply list_elem_of_fmap_2.
  - contradict Hr. rewrite <-Heq. by apply list_elem_of_fmap_2.
  - by apply IH.
Qed.

(** Step 2 on one row: the SaleAmount cell is coerced, the label is kept. *)
Lemma sales_coerce_amount df r' :
  "SaleAmount" ∈ columns df → r' ∈ rows (sales_coerce df) →
  ∃ r, r ∈ rows df ∧ label r' = label r ∧
       cell "SaleAmount" r' = to_numeric (cell "SaleAmount" r).
Proof.
  intros Hcol%has_true. unfold sales_coerce. cbv zeta. rewrite Hcol.
  set (coerced := assign "SaleAmount" to_numeric df).
  assert (∀ r1, r1 ∈ rows coerced →
    ∃ r, r ∈ rows df ∧ label r1 = label r ∧
         cell "SaleAmount" r1 = to_numeric (cell "SaleAmount" r)) as Hcoerced.
  { unfold coerced, assign; simpl. intros r1 (r & -> & Hr)%list_elem_of_fmap.
    exists r. split; [done|]. split; [done|]. rewrite cell_set_cell. by case_decide. }
  assert (traces "SaleAmount"
            (if has "Shipping" coerced
             then assign "Shipping" to_numeric (assign "Shipping" (replace "free" "0") coerced)
             else coerced) coerced) as [_ Htr] by traces_steps.
  intros (r1 & Hr1 & Hl1 & Hc1)%Htr. apply Hcoerced in Hr1 as (r & Hr & Hl & Hc).
  exists r. split; [done|]. split; congruence.
Qed.

Lemma sales_fill_traces k df out :
  k ≠ "CampaignID" → k ≠ "Shipping" → sales_fill df = Ok out → traces k out df.
Proof.
  intros ? ?. unfold sales_fill. cbv zeta.
  destruct (has "Shipping" _);
    [intros Hout; inv_Ok Hout; injection Hout as <- | intros [= <-]]; traces_steps.
Qed.

Lemma sales_drop_critical_traces k df : traces k (sales_drop_critical df) df.
Proof. unfold sales_drop_critical. traces_steps. Qed.

Lemma sales_format_traces k df : k ≠ "State" → traces k (sales_format df) df.
Proof. intros. unfold sales_format. traces_steps. Qed.

Lemma sales_nonnegative_traces k df : traces k (sales_nonnegative df) df.
Proof. unfold sales_nonnegative. cbv zeta. traces_steps. Qed.

Lemma sales_outliers_traces k df out : sales_outliers df = Ok out → traces k out df.
Proof.
  unfold sales_outliers. destruct (has "SaleAmount" _).
  - intros Hout. inv_Ok Hout. destruct d as [lo hi]. injection Hout as <-. traces_steps.
  - intros [= <-]. traces_steps.
Qed.

Lemma sales_dates_traces k df : k ≠ "SaleDate" → traces k (sales_dates df) df.
Proof. intros. unfold sales_dates. traces_steps. Qed.

(** The final sort and renumbering keep the rows' cells. *)
Lemma sales_sort_cells df out :
  sales_sort df = Ok out → cells <$> rows out ≡ₚ cells <$> rows df.
Proof.
  unfold sales_sort. destruct (has "TransactionID" _); [|by intros [= <-]].
  intros Hout. inv_Ok Hout. injection Hout as <-.
  unfold sort_values in Hd. destruct (same_kind _); [|discriminate]. injection Hd as <-.
  unfold reset_index; simpl. rewrite (fmap_imap_ext cells cells) by done.
  apply fmap_Permutation, quicksort_Permutation.
Qed.

Lemma dropna_cell c subset df r :
  c ∈ subset → r ∈ rows (dropna subset df) → cell c r ≠ NA.
Proof.
  intros Hc [Hr _]%list_elem_of_filter. rewrite Forall_forall in Hr. by apply Hr.
Qed.

(** After the critical-column drop of step 3 no row carries the label of a
    row whose SaleAmount was "?". *)
Lemma sales_drop_critical_sentinel df filled r :
  parse_float "?" = None →
  "SaleAmount" ∈ columns df →
  NoDup (labels df) →
  r ∈ rows df →
  cell "SaleAmount" r = Str "?" →
  sales_fill (sales_coerce (sales_remove_duplicates df)) = Ok filled →
  label r ∉ labels (sales_drop_critical filled).
Proof.
  intros Hparse Hcol Hnd Hr Hcell Hfill (r' & Hl' & Hr')%list_elem_of_fmap.
  pose proof (sales_fill_traces "SaleAmount" _ _ ltac:(done) ltac:(done) Hfill)
    as [Hcols Hfilled].
  assert (cell "SaleAmount" r' ≠ NA) as Hpresent.
  { eapply dropna_cell; [|exact Hr']. apply existing_elem.
    - compute_done.
    - rewrite Hcols.
      by rewrite (proj1 (sales_coerce_narrows "" _ ltac:(done) ltac:(done))). }
  apply (proj2 (sales_drop_critical_traces "SaleAmount" filled)) in Hr'
    as (r1 & Hr1 & Hl1 & Hc1).
  apply Hfilled in Hr1 as (r2 & Hr2 & Hl2 & Hc2).
  apply sales_coerce_amount in Hr2 as (r3 & Hr3 & Hl3 & Hc3); [|done].
  assert (r3 ∈ rows df) as Hr3'
    by (eapply elem_of_sublist; [exact Hr3 | apply keep_first_sublist]).
  assert (r3 = r) as -> by (eapply NoDup_labels_eq; [exact Hnd|done|done|congruence]).
  apply Hpresent. rewrite Hc1, Hc2, Hc3, Hcell. simpl. by rewrite Hparse.
Qed.

End sales_sentinel.

Section sales_sentinel_claim.
Context `{Parsers, Quicksort}.

(** C8: a raw Sale row whose SaleAmount is the string "?" is dropped.  With
    "?" not a numeric token and row labels distinct (as [read_csv] numbers
    them): after the coercion of step 2 the row, if deduplication kept it,
    has a missing SaleAmount; after the critical-column drop of step 3 no row
    carries its label; and the cleaned table is, up to order and renumbering,
    the table of steps 1 to 6, in which no row carries its label. *)
Theorem sale_with_unparseable_amount_is_dropped df r :
  parse_float "?" = None →
  "SaleAmount" ∈ columns df →
  NoDup (labels df) →
  r ∈ rows df →
  cell "SaleAmount" r = Str "?" →
  (∀ r', r' ∈ rows (sales_coerce (sales_remove_duplicates df)) →
         label r' = label r → cell "SaleAmount" r' = NA) ∧
  (∀ filled, sales_fill (sales_coerce (sales_remove_duplicates df)) = Ok filled →
             label r ∉ labels (sales_drop_critical filled)) ∧
  (∀ out, clean_sales_data df = Ok out →
          ∃ piped, sales_pipeline df = Ok piped ∧
                   (label r ∉ labels piped) ∧
                   (cells <$> rows out) ≡ₚ (cells <$> rows piped)).
Proof.
  intros Hparse Hcol Hnd Hr Hcell. split; [|split].
  - intros r' Hr' Hlabel.
    apply sales_coerce_amount in Hr' as (r0 & Hr0 & Hl0 & Hc0); [|done].
    assert (r0 ∈ rows df) as Hr0'
      by (eapply elem_of_sublist; [exact Hr0 | apply keep_first_sublist]).
    assert (r0 = r) as -> by (eapply NoDup_labels_eq; [exact Hnd|done|done|congruence]).
    rewrite Hc0, Hcell. simpl. by rewrite Hparse.
  - intros filled Hfill. by eapply sales_drop_critical_sentinel.
  - intros out Hout.
    pose proof Hout as (filled & cut & Hfill & Hcut & Hsort & _)%clean_sales_data_Ok.
    exists (sales_dates cut). split; [|split].
    + unfold sales_pipeline, sales_before_outliers. cbv zeta. rewrite Hfill. simpl.
      by rewrite Hcut.
    + intros Hin.
      eapply (sales_drop_critical_sentinel df filled r); try done.
      assert (traces "SaleAmount" (sales_dates cut) (sales_drop_critical filled)) as Htr.
      { eapply traces_trans; [by apply sales_dates_traces|].
        eapply traces_trans; [by eapply sales_outliers_traces|].
        eapply traces_trans; [apply sales_nonnegative_traces|].
        by apply sales_format_traces. }
      by apply (traces_labels _ _ _ Htr).
    + by apply sales_sort_cells.
Qed.

End sales_sentinel_claim.

Section sales_sentinel_example.
Import Fixtures.

Lemma sale_with_unparseable_amount_is_dropped_witness :
  (∀ r', r' ∈ rows (sales_coerce (sales_remove_duplicates sales_raw)) →
         label r' = 5%nat → cell "SaleAmount" r' = NA) ∧
  (∀ filled, sales_fill (sales_coerce (sales_remove_duplicates sales_raw)) = Ok filled →
             5%nat ∉ labels (sales_drop_critical filled)) ∧
  (∀ out, clean_sales_data sales_raw = Ok out →
          ∃ piped, sales_pipeline sales_raw = Ok piped ∧
                   (5%nat ∉ labels piped) ∧
                   (cells <$> rows out) ≡ₚ (cells <$> rows piped)).
Proof.
  apply (sale_with_unparseable_amount_is_dropped sales_raw sale_with_question_mark);
    compute_done.
Defined.

End sales_sentinel_example.

(** ** The cleaning entry point *)

Section entry_point.
Context `{Parsers, Quicksort}.

Lemma read_csv_file_missing fs file_name :
  raw_data_dir fs !! file_name = None → read_csv_file fs file_name = Raise FileNotFoundError.
Proof. unfold read_csv_file. by intros ->. Qed.

Lemma process_files_logged files fs log :
  ∃ records, (process_files files fs log).1.2 = (log ++ records)%list ∧
             logged files records (process_files files fs log).2.
Proof.
  revert fs log. induction files as [|f rest IH]; intros fs log; simpl.
  - exists []. split; [by rewrite app_nil_r | constructor].
  - destruct (process_file f fs) as [fs'|e].
    + destruct (IH fs' (log ++ [LogSuccess (input f)])%list) as (records & Hlog & Hrec).
      exists (LogSuccess (input f) :: records). split; [|by constructor].
      by rewrite Hlog, <-app_assoc.
    + destruct (decide (e = FileNotFoundError)) as [->|Hne].
      * destruct (IH fs (log ++ [LogWarning (input f) FileNotFoundError])%list)
          as (records & Hlog & Hrec).
        exists (LogWarning (input f) FileNotFoundError :: records).
        split; [|by constructor]. by rewrite Hlog, <-app_assoc.
      * exists [LogError (input f) e].
        destruct e; try done; simpl; (split; [done | by constructor]).
Qed.

Lemma raises_only_Ok {A} allowed (a : A) : raises_only allowed (Ok a).
Proof. by intros e. Qed.

Lemma raises_only_bind {A B} allowed (m : Result A) (f : A → Result B) :
  raises_only allowed m → (∀ a, raises_only allowed (f a)) → raises_only allowed (m ≫= f).
Proof.
  intros Hm Hf e. destruct m as [a|e']; [exact (Hf a e)|].
  intros [= <-]. by apply Hm.
Qed.

Lemma raises_only_numeric_column allowed vs :
  TypeError ∈ allowed → raises_only allowed (numeric_column vs).
Proof. intros ? e. unfold numeric_column. destruct (forallb _ _); [done|]. by intros [= <-]. Qed.

Lemma raises_only_median allowed vs : TypeError ∈ allowed → raises_only allowed (median vs).
Proof.
  intros. apply raises_only_bind; [by apply raises_only_numeric_column|].
  intros xs. apply raises_only_Ok.
Qed.

Lemma raises_only_quantile allowed q vs :
  TypeError ∈ allowed → raises_only allowed (quantile q vs).
Proof.
  intros. apply raises_only_bind; [by apply raises_only_numeric_column|].
  intros xs. apply raises_only_Ok.
Qed.

Lemma raises_only_iqr_bounds allowed vs :
  TypeError ∈ allowed → raises_only allowed (iqr_bounds vs).
Proof.
  intros. unfold iqr_bounds.
  repeat (apply raises_only_bind; [by apply raises_only_quantile|]; intros ?).
  apply raises_only_Ok.
Qed.

Lemma raises_only_sort_values allowed c df :
  TypeError ∈ allowed → raises_only allowed (sort_values c df).
Proof. intros ? e. unfold sort_values. destruct (same_kind _); [done|]. by intros [= <-]. Qed.

Lemma raises_only_drop_duplicates allowed subset df :
  KeyError ∈ allowed → raises_only allowed (drop_duplicates subset df).
Proof. intros ? e. unfold drop_duplicates. case_decide; [done|]. by intros [= <-]. Qed.

Lemma raises_only_log_rows_removed allowed n df :
  ZeroDivisionError ∈ allowed → raises_only allowed (log_rows_removed n df).
Proof. intros ? e. unfold log_rows_removed. case_decide; [|done]. by intros [= <-]. Qed.

Ltac raises_step :=
  first
    [ apply raises_only_Ok
    | apply raises_only_median; set_solver
    | apply raises_only_iqr_bounds; set_solver
    | apply raises_only_sort_values; set_solver
    | apply raises_only_drop_duplicates; set_solver
    | apply raises_only_log_rows_removed; set_solver
    | apply raises_only_bind; [|intros ?]
    | match goal with
      | |- raises_only _ (if ?b then _ else _) => destruct b
      | |- raises_only _ (let '(_, _) := ?p in _) => destruct p
      | |- raises_only _ (match ?p with (_, _) => _ end) => destruct p
      end ].

Lemma clean_sales_data_raises df : raises_only cleaner_errors (clean_sales_data df).
Proof.
  unfold clean_sales_data, sales_pipeline, sales_before_outliers, sales_fill,
    sales_outliers, sales_sort, cleaner_errors. cbv zeta.
  repeat raises_step.
Qed.

Lemma clean_customers_data_raises df : raises_only cleaner_errors (clean_customers_data df).
Proof.
  unfold clean_customers_data, customers_pipeline, customers_remove_duplicates,
    customers_outliers, customers_sort, cleaner_errors. cbv zeta.
  repeat raises_step.
Qed.

Lemma clean_products_data_raises df : raises_only cleaner_errors (clean_products_data df).
Proof.
  unfold clean_products_data, products_pipeline, products_remove_duplicates,
    products_missing, products_outliers, products_sort, cleaner_errors. cbv zeta.
  repeat raises_step.
Qed.

(** C9: in the loop of [main], a missing input file is skipped with a
    warning and the remaining files are processed from the same state; a
    file that is processed is logged and the loop goes on; any exception
    other than FileNotFoundError is logged as an error and raised to the
    caller, the remaining files untouched, and that is so for every
    exception of the three cleaners.  No exception is swallowed: when the
    loop returns, every file has its success or its warning in the log, and
    when it raises, the exception raised is the last record. *)
Theorem main_error_policy :
  (∀ f rest fs log,
     raw_data_dir fs !! input f = None →
     process_files (f :: rest) fs log
     = process_files rest fs (log ++ [LogWarning (input f) FileNotFoundError])%list) ∧
  (∀ f rest fs fs' log,
     process_file f fs = Ok fs' →
     process_files (f :: rest) fs log
     = process_files rest fs' (log ++ [LogSuccess (input f)])%list) ∧
  (∀ f rest fs log e,
     process_file f fs = Raise e → e ≠ FileNotFoundError →
     process_files (f :: rest) fs log = (fs, (log ++ [LogError (input f) e])%list, Raise e)) ∧
  (∀ f df e, f ∈ files_to_process → cleaner f df = Raise e → e ≠ FileNotFoundError) ∧
  (∀ fs, logged files_to_process (main fs).1.2 (main fs).2).
Proof.
  split; [|split; [|split; [|split]]].
  - intros f rest fs log Hmissing. simpl. unfold process_file.
    by rewrite (read_csv_file_missing _ _ Hmissing).
  - intros f rest fs fs' log Hok. simpl. by rewrite Hok.
  - intros f rest fs log e Hraise Hne. simpl. rewrite Hraise. by destruct e.
  - intros f df e Hf Hraise.
    assert (e ∈ cleaner_errors) as He.
    { unfold files_to_process in Hf.
      repeat (apply elem_of_cons in Hf as [->|Hf]); simpl in Hraise.
      - by apply (clean_sales_data_raises df).
      - by apply (clean_customers_data_raises df).
      - by apply (clean_products_data_raises df).
      - by apply elem_of_nil in Hf. }
    intros ->. revert He. compute_done.
  - intros fs. destruct (process_files_logged files_to_process fs []) as (records & Hlog & Hrec).
    unfold main. by rewrite Hlog.
Qed.

End entry_point.

Section entry_point_examples.
Import Fixtures.

(** Without a sales extract the run warns and prepares the other two files;
    with a customers extract that lacks CustomerID it prepares the sales,
    raises the [KeyError] and leaves the products untouched. *)
Lemma main_error_policy_witness :
  main raw_without_sales
  = ({| raw_data_dir := raw_data_dir raw_without_sales;
        prepared_data_dir := {[ "customers_prepared.csv" := customers_prepared;
                                "products_prepared.csv" := products_prepared ]} |},
     [LogWarning "sales_data.csv" FileNotFoundError;
      LogSuccess "customers_data.csv"; LogSuccess "products_data.csv"],
     Ok ()) ∧
  main raw_with_broken_customers
  = ({| raw_data_dir := raw_data_dir raw_with_broken_customers;
        prepared_data_dir := {[ "sales_prepared.csv" := sales_prepared ]} |},
     [LogSuccess "sales_data.csv"; LogError "customers_data.csv" KeyError],
     Raise KeyError).
Proof.
  destruct (main_error_policy (H := parsers)) as (Hskip & Hok & Habort & _ & _).
  split; unfold main, files_to_process.
  - rewrite Hskip by compute_done. compute_done.
  - rewrite (Hok _ _ _ {| raw_data_dir := raw_data_dir raw_with_broken_customers;
                          prepared_data_dir := {[ "sales_prepared.csv" := sales_prepared ]} |})
      by compute_done.
    rewrite (Habort _ _ _ _ KeyError) by compute_done. compute_done.
Defined.

End entry_point_examples.

(** ** Column names of the cube *)

Section column_names.

Lemma foldl_snoc_fmap {A B} (g : A → B) (acc : list B) (l : list A) :
  foldl (λ acc x, (acc ++ [g x])%list) acc l = (acc ++ (g <$> l))%list.
Proof.
  revert acc. induction l as [|x l IH]; intros acc; simpl.
  - by rewrite app_nil_r.
  - rewrite IH. by rewrite <-app_assoc.
Qed.

Lemma generate_column_names_unfold dimensions measures :
  generate_column_names dimensions measures
  = rstrip is_underscore <$> (dimensions ++ measure_names measures)%list.
Proof.
  unfold generate_column_names. f_equal.
  generalize dimensions as acc.
  induction measures as [|[column agg_func] measures IH]; intros acc; simpl.
  - by rewrite app_nil_r.
  - rewrite IH, app_assoc. f_equal.
    destruct agg_func as [funcs|func]; simpl; [|done].
    apply foldl_snoc_fmap.
Qed.

Lemma rstrip_decompose p s :
  ∃ n, s = rstrip p s +:+ n ∧ Forall (λ a, p a = true) (list_ascii_of_string n).
Proof.
  induction s as [|a s (n & Hs & Hn)]; simpl.
  - exists "". by split.
  - destruct (rstrip p s) as [|b t] eqn:Hstrip.
    + destruct (p a) eqn:Hpa.
      * exists (String a n). simpl in *. subst s. split; [done|]. by constructor.
      * exists n. simpl in *. by subst s.
    + exists n. simpl in *. split; [|done]. by rewrite Hs at 1.
Qed.

Lemma rstrip_last_char p s a : last_char (rstrip p s) = Some a → p a = false.
Proof.
  induction s as [|b s IH]; simpl; [done|].
  destruct (rstrip p s) as [|c t] eqn:Hstrip.
  - destruct (p b) eqn:Hpb; simpl; [done|]. by intros [= <-].
  - simpl. apply IH.
Qed.

Lemma rstrip_id p s :
  (∀ a, last_char s = Some a → p a = false) → rstrip p s = s.
Proof.
  induction s as [|b s IH]; simpl; [done|]. intros Hlast.
  destruct s as [|c s].
  - simpl. by rewrite Hlast.
  - rewrite IH by done. done.
Qed.

Lemma generate_column_names_length dimensions measures :
  length (generate_column_names dimensions measures)
  = (length dimensions + sum_list (n_funcs <$> measures))%nat.
Proof.
  rewrite generate_column_names_unfold, length_fmap, length_app. f_equal.
  unfold measure_names, n_funcs.
  induction measures as [|[column agg_func] measures IH]; simpl; [done|].
  by rewrite length_app, length_fmap, IH.
Qed.

(** C7: the names are the dimensions in their order, then one name
    "{measure}_{function}" per measure and function in the order of the
    mapping, each of them, the dimension names too, with its trailing
    underscores removed: what is removed
    from a name is a run of underscores at its end, no underscore is left at
    the end, and a name that does not end in an underscore is kept as it
    is. *)
Theorem generate_column_names_spec dimensions measures :
  generate_column_names dimensions measures
  = ((rstrip is_underscore <$> dimensions)
     ++ (rstrip is_underscore <$> measure_names measures))%list ∧
  length (generate_column_names dimensions measures)
  = (length dimensions + sum_list (n_funcs <$> measures))%nat ∧
  (∀ name, ∃ n, name = rstrip is_underscore name +:+ underscores n) ∧
  (∀ name, last_char (rstrip is_underscore name) ≠ Some "_"%char) ∧
  (∀ name, last_char name ≠ Some "_"%char → rstrip is_underscore name = name).
Proof.
  split; [|split; [|split; [|split]]].
  - by rewrite generate_column_names_unfold, fmap_app.
  - apply generate_column_names_length.
  - intros name. destruct (rstrip_decompose is_underscore name) as (n & Hname & Hn).
    exists (String.length n). rewrite Hname at 1. f_equal.
    clear Hname. induction n as [|a n IH]; simpl; [done|].
    apply Forall_cons in Hn as [Ha Hn]. f_equal; [|by apply IH].
    unfold is_underscore in Ha. by apply bool_decide_eq_true in Ha.
  - intros name Hlast. apply rstrip_last_char in Hlast. done.
  - intros name Hlast. apply rstrip_id. intros a Ha.
    unfold is_underscore. apply bool_decide_eq_false. intros ->. by rewrite Ha in Hlast.
Qed.

End column_names.

(** ** The OLAP cube *)

Section cube_facts.
Context `{Aggregations}.

Lemma mapM_Ok {A B} (f : A → Result B) l ys :
  mapM f l = Ok ys → Forall2 (λ x y, f x = Ok y) l ys.
Proof.
  revert ys. induction l as [|x l IH]; intros ys; simpl.
  - intros [= <-]. constructor.
  - intros Hys. inv_Ok Hys. injection Hys as <-. constructor; [done | by apply IH].
Qed.

(** The keys of the groups: the distinct tuples without a missing value. *)
Lemma groupby_keys df dimensions grouped :
  groupby df dimensions = Ok grouped →
  dimensions ≠ [] ∧ dimensions ⊆ columns df ∧
  grouped.*1 ≡ₚ group_keys df dimensions ∧
  Forall (λ k, length k = length dimensions) grouped.*1.
Proof.
  unfold groupby. case_decide as Hdims; [discriminate|].
  case_decide as Hcols; [|discriminate]. intros [= <-].
  split; [done|]. split; [done|].
  rewrite <-list_fmap_compose. simpl.
  assert (∀ l : list (list value), (λ k, k) <$> l = l) as Hid by apply list_fmap_id.
  change ((fst ∘ _) <$> ?l) with ((λ k : list value, k) <$> l). rewrite Hid.
  split; [apply sort_Permutation|].
  rewrite sort_Permutation. apply Forall_forall.
  intros k (r & -> & _)%elem_of_remove_dups%list_elem_of_fmap.
  unfold tuple. by rewrite length_fmap.
Qed.

Lemma set_columns_Ok names cube out :
  set_columns names cube = Ok out →
  header out = names ∧ body out = body cube ∧ length names = length (header cube).
Proof. unfold set_columns. case_decide; [|discriminate]. by intros [= <-]. Qed.

Lemma length_measure_pairs (measures : Measures) :
  length (flat_map (λ m, (λ f, (m.1, f)) <$> funcs_of m.2) measures)
  = sum_list (n_funcs <$> measures).
Proof.
  induction measures as [|m measures IH]; simpl; [done|].
  rewrite length_app, length_fmap, IH. done.
Qed.

Lemma length_measure_labels (measures : Measures) :
  length (flat_map (λ m, (λ _ : string, m.1) <$> funcs_of m.2) measures)
  = sum_list (n_funcs <$> measures).
Proof.
  induction measures as [|m measures IH]; simpl; [done|].
  rewrite length_app, length_fmap, IH. done.
Qed.

(** Some measure names a function and the result has lost the group index:
    then there was no group. *)
Lemma indexed_by_groups_false grouped (measures : Measures) :
  indexed_by_groups grouped measures = false →
  Exists (λ m, funcs_of m.2 ≠ []) measures → grouped = [].
Proof.
  unfold indexed_by_groups. destruct measures as [|m measures]; [by intros _ ?%Exists_nil|].
  intros [_ Hrest%bool_decide_eq_false]%orb_false_iff Hexists.
  destruct (decide (grouped = [])) as [|Hgrouped]; [done|]. by destruct Hrest.
Qed.

(** No measure names a function: the result has lost the group index. *)
Lemma indexed_by_groups_unnamed grouped (measures : Measures) :
  Forall (λ m, funcs_of m.2 = []) measures → indexed_by_groups grouped measures = false.
Proof.
  unfold indexed_by_groups. destruct measures as [|m measures]; [done|].
  intros Hnone. apply orb_false_iff. split; apply bool_decide_eq_false.
  - apply Forall_cons in Hnone as [Hm _]. by intros ?.
  - intros [_ (m' & Hm' & Hnames)%Exists_exists].
    rewrite Forall_forall in Hnone. by apply Hnames, Hnone.
Qed.

Lemma agg_reset_index_Ok df dimensions grouped measures cube :
  agg_reset_index df dimensions grouped measures = Ok cube →
  check_measures df dimensions measures = Ok () ∧
  ((indexed_by_groups grouped measures = true ∧
    NoDup dimensions ∧
    length (header cube) = (length dimensions + sum_list (n_funcs <$> measures))%nat ∧
    Forall2 (λ g row, ∃ values, row = (g.1 ++ values)%list ∧
                       length values = sum_list (n_funcs <$> measures))
            grouped (body cube)) ∨
   (indexed_by_groups grouped measures = false ∧ body cube = [])).
Proof.
  unfold agg_reset_index. intros Hcube.
  destruct (check_measures df dimensions measures) as [[]|e] eqn:Hcheck; [|discriminate].
  simpl in Hcube. inv_Ok Hcube. split; [done|].
  destruct (indexed_by_groups grouped measures); [left | right].
  - case_decide as Hnd; [|discriminate]. injection Hcube as <-. simpl.
    split; [done|]. split; [done|]. split.
    + by rewrite length_app, length_measure_labels.
    + apply mapM_Ok in Hd. eapply Forall2_impl; [exact Hd|].
      intros [key group] row Hrow. simpl in *. inv_Ok Hrow. injection Hrow as <-.
      exists d0. split; [done|].
      apply mapM_Ok, Forall2_length in Hd0. by rewrite <-Hd0, length_measure_pairs.
  - by injection Hcube as <-.
Qed.

End cube_facts.

Section cube_shape.
Context `{Aggregations}.

Lemma create_olap_cube_Ok sales_df dimensions measures cube :
  create_olap_cube sales_df dimensions measures = Ok cube →
  ∃ grouped aggregated,
    groupby sales_df dimensions = Ok grouped ∧
    agg_reset_index sales_df dimensions grouped measures = Ok aggregated ∧
    set_columns (generate_column_names dimensions measures) aggregated = Ok cube.
Proof. unfold create_olap_cube. intros Hcube. inv_Ok Hcube. eauto. Qed.

(** C2: the cube returned by create_olap_cube has
    len(dimensions) + sum(len(funcs)) columns (a single function name counts
    as one) and every row has that many cells.  When some measure names a
    function there is one row per distinct dimension tuple of the rows that
    have no missing value in a dimension column: the leading cells of the
    rows are those tuples, each once; a row with a missing dimension value
    belongs to no group.  When no measure names a function the cube has no
    row. *)
Theorem create_olap_cube_shape sales_df dimensions measures cube :
  create_olap_cube sales_df dimensions measures = Ok cube →
  length (header cube) = (length dimensions + sum_list (n_funcs <$> measures))%nat ∧
  Forall (λ row, length row = length (header cube)) (body cube) ∧
  (Exists (λ m, funcs_of m.2 ≠ []) measures →
   (take (length dimensions) <$> body cube) ≡ₚ group_keys sales_df dimensions ∧
   length (body cube) = length (group_keys sales_df dimensions) ∧
   Forall (λ row, NA ∉ take (length dimensions) row) (body cube)) ∧
  (Forall (λ m, funcs_of m.2 = []) measures → body cube = []).
Proof.
  intros (grouped & aggregated & Hgroup & Hagg & Hset)%create_olap_cube_Ok.
  apply groupby_keys in Hgroup as (_ & _ & Hkeys & Hlen).
  apply agg_reset_index_Ok in Hagg as (_ & Hagg).
  apply set_columns_Ok in Hset as (Hnames & -> & Hsame).
  assert (length (header cube) = (length dimensions + sum_list (n_funcs <$> measures))%nat)
    as Hwidth by (rewrite Hnames; apply generate_column_names_length).
  split; [done|].
  destruct Hagg as [(Hindexed & _ & Hheader & Hbody) | (Hindexed & Hnone)].
  - assert (take (length dimensions) <$> body aggregated = grouped.*1) as Htake.
    { clear Hkeys Hindexed. induction Hbody as [|g row grouped rows (values & -> & _) _ IH]; [done|].
      rewrite !fmap_cons. apply Forall_cons in Hlen as [Hg Hlen].
      rewrite IH by done. f_equal. by rewrite take_app_length'. }
    split; [|split].
    + rewrite Hwidth. clear Hkeys Htake Hindexed.
      induction Hbody as [|g row grouped rows (values & -> & Hvalues) _ IH]; [constructor|].
      apply Forall_cons in Hlen as [Hg Hlen]. constructor; [|by apply IH].
      rewrite length_app. congruence.
    + intros _. split; [by rewrite Htake|]. split.
      * rewrite <-Hkeys, <-Htake. by rewrite length_fmap.
      * apply Forall_forall. intros row Hrow.
        assert (take (length dimensions) row ∈ group_keys sales_df dimensions) as Hkey.
        { rewrite <-Hkeys, <-Htake. by apply list_elem_of_fmap_2. }
        apply elem_of_remove_dups, list_elem_of_fmap in Hkey as (r & -> & Hr).
        by apply list_elem_of_filter in Hr as [Hr _].
    + intros Hunnamed. by rewrite (indexed_by_groups_unnamed grouped) in Hindexed.
  - rewrite Hnone. split; [constructor|]. split; [|done].
    intros Hnamed. rewrite (indexed_by_groups_false _ _ Hindexed Hnamed) in Hkeys.
    simpl in Hkeys. apply Permutation_nil_l in Hkeys. rewrite <-Hkeys. simpl.
    split; [done|]. split; [done | constructor].
Qed.


End cube_shape.

Section cube_examples.
Import Fixtures.

(** Dimension ["product_id"] and measures {"sale_amount": ["sum"]}; a single
    function name, an empty name and a dimension that ends in an underscore. *)
Lemma generate_column_names_spec_witness :
  generate_column_names ["product_id"] sales_by_product = ["product_id"; "sale_amount_sum"] ∧
  generate_column_names ["region_"] [("total", Func ""); ("sale_amount", Func "mean")]
  = ["region"; "total"; "sale_amount_mean"] ∧
  rstrip is_underscore "sale_amount_sum" = "sale_amount_sum".
Proof.
  split; [|split].
  - rewrite (proj1 (generate_column_names_spec _ _)). reflexivity.
  - rewrite (proj1 (generate_column_names_spec _ _)). reflexivity.
  - apply (generate_column_names_spec [] []). discriminate.
Defined.

(** A dimension does not always keep its name: [rstrip('_')] runs over every
    name, so the dimension "region_" comes out as "region". *)
Lemma generate_column_names_trims_dimension :
  generate_column_names ["region_"] sales_by_product = ["region"; "sale_amount_sum"] ∧
  head (generate_column_names ["region_"] sales_by_product) ≠ Some "region_".
Proof. compute_done. Qed.

(** Example 5 of the spec: (p1, 10), (p1, 20), (p2, 5) summed by product. *)
Lemma create_olap_cube_shape_witness :
  create_olap_cube facts ["product_id"] sales_by_product
  = Ok {| header := ["product_id"; "sale_amount_sum"];
          body := [ [int 1; int 30]; [int 2; int 5] ] |} ∧
  group_keys facts ["product_id"] = [ [int 1]; [int 2] ] ∧
  length [ [int 1; int 30]; [int 2; int 5] ] = length (group_keys facts ["product_id"]).
Proof.
  split; [compute_done|]. split; [compute_done|].
  destruct (create_olap_cube_shape facts ["product_id"] sales_by_product
              {| header := ["product_id"; "sale_amount_sum"];
                 body := [ [int 1; int 30]; [int 2; int 5] ] |})
    as (_ & _ & Hnamed & _); [compute_done|].
  apply Hnamed. by apply Exists_cons_hd.
Defined.

(** A sale without a product is in no group: the fact table shows two
    distinct dimension tuples, (1) and (missing), and the cube has one row.
    And with a measure whose function list is empty the cube has no row at
    all, although the fact table shows two products. *)
Lemma create_olap_cube_drops_missing_dimension :
  create_olap_cube facts_with_missing_product ["product_id"] sales_by_product
  = Ok {| header := ["product_id"; "sale_amount_sum"]; body := [ [int 1; int 30] ] |} ∧
  remove_dups (tuple ["product_id"] <$> rows facts_with_missing_product)
  = [ [int 1]; [NA] ] ∧
  length [ [int 1; int 30] ] ≠ length [ [int 1]; [NA] ] ∧
  create_olap_cube facts ["product_id"] [("sale_amount", Funcs [])]
  = Ok {| header := ["product_id"]; body := [] |} ∧
  remove_dups (tuple ["product_id"] <$> rows facts) = [ [int 1]; [int 2] ].
Proof. repeat split; compute_done. Qed.



End cube_examples.

(** ** The warehouse load *)

Section warehouse.
Context `{Sqlite}.




(** [after w' w]: the run has gone on from [w] to [w'] in the same
    environment. *)
Definition after (w' w : World) : Prop :=
  prepared w' = prepared w ∧ fault w' = fault w.

Lemma after_refl w : after w w.
Proof. done. Qed.














End warehouse.

Section warehouse_claim.
Context `{Sqlite}.






End warehouse_claim.

Section warehouse_examples.
Import Fixtures.



End warehouse_examples.

(** ** Cleaning a cleaned table again *)

(** *** Strings and values that cleaning leaves as they are *)

Section fixed_points.
Context `{Parsers, Quicksort}.

Lemma upper_ascii_idemp a : upper_ascii (upper_ascii a) = upper_ascii a.
Proof. by destruct a as [[] [] [] [] [] [] [] []]. Qed.

Lemma is_space_upper_ascii a : is_space (upper_ascii a) = is_space a.
Proof. by destruct a as [[] [] [] [] [] [] [] []]. Qed.

Lemma upper_idemp s : upper (upper s) = upper s.
Proof. induction s as [|a s IH]; simpl; [done|]. by rewrite upper_ascii_idemp, IH. Qed.

Lemma upper_lstrip s : upper (lstrip is_space s) = lstrip is_space (upper s).
Proof.
  induction s as [|a s IH]; simpl; [done|].
  rewrite is_space_upper_ascii. by destruct (is_space a).
Qed.

Lemma upper_rstrip s : upper (rstrip is_space s) = rstrip is_space (upper s).
Proof.
  induction s as [|a s IH]; simpl; [done|].
  rewrite <-IH, is_space_upper_ascii.
  destruct (rstrip is_space s); simpl; [by destruct (is_space a) | done].
Qed.

Lemma lstrip_idemp p s : lstrip p (lstrip p s) = lstrip p s.
Proof.
  induction s as [|a s IH]; simpl; [done|].
  destruct (p a) eqn:Hpa; [done|]. simpl. by rewrite Hpa.
Qed.

Lemma last_char_lstrip p s a :
  last_char (lstrip p s) = Some a → last_char s = Some a.
Proof.
  induction s as [|b s IH]; simpl; [done|].
  destruct (p b); [|done]. intros Hlast. specialize (IH Hlast).
  destruct s; [done | exact IH].
Qed.

Lemma strip_idemp s : strip (strip s) = strip s.
Proof.
  unfold strip. rewrite (rstrip_id is_space (lstrip _ _)).
  - apply lstrip_idemp.
  - intros a Hlast%last_char_lstrip. by eapply rstrip_last_char.
Qed.

Lemma upper_and_trim_idemp v : upper_and_trim (upper_and_trim v) = upper_and_trim v.
Proof.
  destruct v as [|x|s|t]; simpl; try done. f_equal.
  unfold strip at 2. rewrite upper_lstrip, upper_rstrip, upper_idemp.
  fold (strip (upper s)). apply strip_idemp.
Qed.

Lemma to_numeric_idemp v : to_numeric (to_numeric v) = to_numeric v.
Proof. destruct v as [|x|s|t]; simpl; try done. by destruct (parse_float s). Qed.

Lemma to_datetime_idemp v : to_datetime (to_datetime v) = to_datetime v.
Proof.
  destruct v as [|x|s|t]; simpl; try done.
  - by destruct (datetime_of_number x).
  - by destruct (parse_datetime s).
Qed.

Lemma fillna_present x v : v ≠ NA → fillna x v = v.
Proof. by destruct v. Qed.

Lemma fillna_not_NA x v : x ≠ NA → fillna x v ≠ NA.
Proof. by destruct v. Qed.

End fixed_points.

(** *** The order of [sort_values] *)

Section value_order.

Lemma string_compare_trans s1 s2 s3 :
  (s1 ?= s2)%string ≠ Gt → (s2 ?= s3)%string ≠ Gt → (s1 ?= s3)%string ≠ Gt.
Proof.
  revert s2 s3. induction s1 as [|a s1 IH]; intros [|b s2] [|c s3]; simpl; try done.
  unfold Ascii.compare.
  destruct (N.compare_spec (N_of_ascii a) (N_of_ascii b)) as [Hab|Hab|Hab];
    destruct (N.compare_spec (N_of_ascii b) (N_of_ascii c)) as [Hbc|Hbc|Hbc];
    destruct (N.compare_spec (N_of_ascii a) (N_of_ascii c)) as [Hac|Hac|Hac];
    try done; try lia.
  apply IH.
Qed.

Lemma string_leb_trans s1 s2 s3 :
  String.leb s1 s2 = true → String.leb s2 s3 = true → String.leb s1 s3 = true.
Proof.
  unfold String.leb. intros H12 H23.
  pose proof (string_compare_trans s1 s2 s3) as Htrans.
  destruct (s1 ?= s2)%string; destruct (s2 ?= s3)%string; try done;
    destruct (s1 ?= s3)%string; try done; by exfalso; apply Htrans.
Qed.

Lemma value_leb_trans a b c :
  value_leb a b = true → value_leb b c = true → value_leb a c = true.
Proof.
  destruct a as [|x|s|t], b as [|y|s'|t'], c as [|z|s''|t'']; simpl; try done.
  - rewrite !bool_decide_eq_true. apply Qcle_trans.
  - apply string_leb_trans.
  - rewrite !Z.leb_le. lia.
Qed.

Lemma string_leb_antisym s1 s2 :
  String.leb s1 s2 = true → String.leb s2 s1 = true → s1 = s2.
Proof.
  unfold String.leb. rewrite (String.compare_antisym s2 s1).
  destruct (s1 ?= s2)%string eqn:Hcmp; simpl; try done.
  intros _ _. by apply String.compare_eq_iff.
Qed.

Lemma value_leb_antisym a b : value_leb a b = true → value_leb b a = true → a = b.
Proof.
  destruct a as [|x|s|t], b as [|y|s'|t']; simpl; try done.
  - rewrite !bool_decide_eq_true. intros Hxy Hyx. f_equal. by apply Qcle_antisym.
  - intros Hst Hts. f_equal. by apply string_leb_antisym.
  - rewrite !Z.leb_le. intros. f_equal. lia.
Qed.

Lemma value_leb_total a b : value_leb a b = false → value_leb b a = true.
Proof.
  destruct a as [|x|s|t], b as [|y|s'|t']; simpl; try done.
  - rewrite bool_decide_eq_false, bool_decide_eq_true.
    intros Hxy. destruct (Qc_le_total x y); [done|]. done.
  - intros Hss. by destruct (String.leb_total s s') as [Hle|Hle]; [congruence|].
  - rewrite Z.leb_gt, Z.leb_le. lia.
Qed.

End value_order.

(** *** Cells that a step hands on, and frames within a frame *)

Section carrying.
Context `{Parsers, Quicksort}.
Implicit Types (k c : string) (df out : DataFrame).

Lemma carries_refl c df : carries c df df.
Proof. split; [done|]. intros r Hr. by exists r. Qed.

Lemma carries_trans c df1 df2 df3 : carries c df1 df2 → carries c df2 df3 → carries c df1 df3.
Proof.
  intros [Hc1 H1] [Hc2 H2]. split; [congruence|].
  intros r1 (r2 & Hr2 & He2)%H1. apply H2 in Hr2 as (r3 & Hr3 & He3).
  exists r3. split; [done | congruence].
Qed.

Lemma carries_sublist c df' df :
  columns df' = columns df → rows df' `sublist_of` rows df → carries c df' df.
Proof.
  intros Hcols Hsub. split; [done|]. intros r Hr. exists r. split; [|done].
  by eapply elem_of_sublist.
Qed.

Lemma carries_assign c' c f df : c' ≠ c → carries c (assign c' f df) df.
Proof.
  intros Hne. split; [done|]. unfold assign; simpl.
  intros r' (r & -> & Hr)%list_elem_of_fmap. exists r. split; [done|].
  simpl. by rewrite lookup_insert_ne.
Qed.

Lemma carries_loc c mask df : carries c (loc mask df) df.
Proof. apply carries_sublist; [done | apply sublist_filter]. Qed.

Lemma carries_dropna c subset df : carries c (dropna subset df) df.
Proof. apply carries_sublist; [done | apply sublist_filter]. Qed.

Lemma carries_reset_index c df : carries c (reset_index df) df.
Proof.
  split; [done|]. unfold reset_index; simpl. intros r' Hr'.
  apply list_elem_of_lookup in Hr' as [i Hi]. rewrite list_lookup_imap in Hi.
  destruct (rows df !! i) as [r|] eqn:Hri; [|done]. injection Hi as <-.
  exists r. split; [|done]. by eapply list_elem_of_lookup_2.
Qed.

Lemma carries_sort_values c k df out : sort_values k df = Ok out → carries c out df.
Proof.
  unfold sort_values. destruct (same_kind _); [|discriminate]. intros [= <-].
  split; [done|]. simpl. intros r Hr. exists r. split; [|done].
  by rewrite quicksort_Permutation in Hr.
Qed.

Lemma holds_carries c P df' df : holds c P df → carries c df' df → holds c P df'.
Proof.
  intros Hholds [_ Hcarries] r' (r & Hr & ->)%Hcarries. by apply Hholds.
Qed.

Lemma holds_impl c (P Q : value → Prop) df : (∀ v, P v → Q v) → holds c P df → holds c Q df.
Proof. intros HPQ Hholds r (v & Hv & HP)%Hholds. exists v. auto. Qed.

Lemma holds_assign c g (Q : value → Prop) df :
  (∀ v, Q (g v)) → holds c Q (assign c g df).
Proof.
  intros HQ r'. unfold assign; simpl. intros (r & -> & Hr)%list_elem_of_fmap.
  exists (g (cell c r)). simpl. by rewrite lookup_insert_eq.
Qed.

Lemma holds_assign_holds c g (P Q : value → Prop) df :
  holds c P df → (∀ v, P v → Q (g v)) → holds c Q (assign c g df).
Proof.
  intros HP HQ r'. unfold assign; simpl. intros (r & -> & Hr)%list_elem_of_fmap.
  exists (g (cell c r)). simpl. rewrite lookup_insert_eq. split; [done|].
  apply HP in Hr as (v & Hv & Hpv). apply HQ. unfold cell. by rewrite Hv.
Qed.

Lemma holds_loc c mask (P Q : value → Prop) df :
  holds c P df → (∀ r, mask r = true → Q (cell c r)) → holds c Q (loc mask df).
Proof.
  intros HP HQ r [Hmask Hr]%list_elem_of_filter.
  apply HP in Hr as (v & Hv & _). exists v. split; [done|].
  specialize (HQ r Hmask). unfold cell in HQ. by rewrite Hv in HQ.
Qed.

Lemma within_refl df : within df df.
Proof. by split. Qed.

Lemma within_trans df1 df2 df3 : within df1 df2 → within df2 df3 → within df1 df3.
Proof. intros [? ?] [? ?]. split; [congruence | by etrans]. Qed.

Lemma within_carries c df' df : within df' df → carries c df' df.
Proof. intros [? ?]. by apply carries_sublist. Qed.

Lemma within_holds c P df' df : within df' df → holds c P df → holds c P df'.
Proof. intros Hwithin Hholds. eapply holds_carries; [done | by apply within_carries]. Qed.

Lemma within_loc mask df : within (loc mask df) df.
Proof. split; [done | apply sublist_filter]. Qed.

Lemma within_dropna subset df : within (dropna subset df) df.
Proof. split; [done | apply sublist_filter]. Qed.

Lemma within_remove_duplicate_records df : within (remove_duplicate_records df) df.
Proof. split; [done | apply keep_first_sublist]. Qed.

Lemma within_drop_duplicates subset df out :
  drop_duplicates subset df = Ok out → within out df.
Proof.
  unfold drop_duplicates. case_decide; [|discriminate]. intros [= <-].
  split; [done | apply keep_first_sublist].
Qed.

Lemma within_has c df' df : within df' df → has c df' = has c df.
Proof. intros [Hcols _]. unfold has. by rewrite Hcols. Qed.

(** Assigning to a column what it already holds changes nothing. *)
Lemma assign_id c f df : holds c (λ v, f v = v) df → assign c f df = df.
Proof.
  intros Hfixed. destruct df as [cols rws]. unfold assign; simpl. f_equal.
  unfold holds in Hfixed; simpl in Hfixed.
  induction rws as [|r rws IH]; [done|]. rewrite fmap_cons. f_equal.
  - destruct (Hfixed r) as (v & Hv & Hfv); [by left|].
    destruct r as [l m]. unfold set_cell, cell; simpl in *. f_equal.
    rewrite Hv. simpl. rewrite Hfv. by apply insert_id.
  - apply IH. intros r' Hr'. apply Hfixed. by right.
Qed.

Lemma within_assign c f df' df :
  holds c (λ v, f v = v) df → within df' df → within (assign c f df') df.
Proof.
  intros Hfixed Hwithin. rewrite assign_id; [done|]. by eapply within_holds.
Qed.

End carrying.

Ltac carries_step :=
  match goal with
  | |- carries _ ?x ?x => apply carries_refl
  | |- carries _ (if ?b then _ else _) _ => destruct b eqn:?
  | |- carries _ (assign _ _ ?d) _ => eapply carries_trans; [apply carries_assign; done|]
  | |- carries _ (loc _ ?d) _ => eapply carries_trans; [apply carries_loc|]
  | |- carries _ (dropna _ ?d) _ => eapply carries_trans; [apply carries_dropna|]
  | |- carries _ (reset_index ?d) _ => eapply carries_trans; [apply carries_reset_index|]
  | |- carries _ (format_column_strings_to_upper_and_trim _ ?d) _ =>
      eapply carries_trans; [apply carries_assign; done|]
  | |- carries _ (filter_column_outliers _ _ _ ?d) _ =>
      eapply carries_trans; [apply carries_loc|]
  end.
Ltac carries_steps := repeat (carries_step; simpl).

(** *** What a cleaned Customer table looks like *)

Section customers_again.
Context `{Parsers, Quicksort}.
Implicit Types (k c : string) (df out : DataFrame).

Lemma settled_carries c P df' df : settled c P df → carries c df' df → settled c P df'.
Proof.
  intros Hsettled Hcarries Hcol. rewrite (proj1 Hcarries) in Hcol.
  eapply holds_carries; [by apply Hsettled | done].
Qed.

Lemma settled_within c P df' df : within df' df → settled c P df → settled c P df'.
Proof. intros Hwithin Hsettled. eapply settled_carries; [done | by apply within_carries]. Qed.

Lemma settled_assign c g (Q : value → Prop) df :
  (∀ v, Q (g v)) → settled c Q (assign c g df).
Proof. intros HQ _. by apply holds_assign. Qed.

Lemma settled_assign_settled c g (P Q : value → Prop) df :
  settled c P df → (∀ v, P v → Q (g v)) → settled c Q (assign c g df).
Proof. intros HP HQ Hcol. eapply holds_assign_holds; [by apply HP | done]. Qed.

Lemma settled_absent c P df : has c df = false → settled c P df.
Proof. intros Hhas Hcol%has_true. congruence. Qed.

(** The sort of the last step, seen through the renumbering of rows. *)
Lemma Sorted_imap_cells (R : relation Row) (f : nat → Row → Row) (l : list Row) :
  (∀ i j r1 r2, R r1 r2 → R (f i r1) (f j r2)) → Sorted R l → Sorted R (imap f l).
Proof.
  intros HR Hsorted. revert f HR.
  induction Hsorted as [|r l Hl IH Hhd]; intros f HR; simpl; constructor.
  - apply IH. intros i j. apply HR.
  - destruct Hhd as [|r' l Hrr']; simpl; constructor. by apply HR.
Qed.

Lemma sort_values_reset_index_sorted k df sorted :
  sort_values k df = Ok sorted → sorted_by k (reset_index sorted).
Proof.
  unfold sort_values. destruct (same_kind _); [|discriminate]. intros [= <-].
  unfold sorted_by, reset_index; simpl.
  apply Sorted_imap_cells; [by intros i j r1 r2|].
  apply quicksort_Sorted. intros r1 r2. apply value_leb_total.
Qed.

Lemma customers_missing_carries c df :
  c ≠ "Region" → c ≠ "NumberOfPurshases" → c ≠ "ShoppingFrequency" →
  carries c (customers_missing df) df.
Proof. intros. unfold customers_missing. cbv zeta. carries_steps; try apply carries_refl. Qed.

Lemma customers_dates_carries c df : c ≠ "JoinDate" → carries c (customers_dates df) df.
Proof. intros. unfold customers_dates. carries_steps; try apply carries_refl. Qed.

Lemma iqr_filter_within c df out :
  ('(lower, upper_bound) ← iqr_bounds (column c df);
   Ok (loc (λ r, ge (cell c r) (max0 lower) && le (cell c r) upper_bound) df)) = Ok out →
  within out df.
Proof.
  intros Hout. inv_Ok Hout. destruct d as [lo hi]. injection Hout as <-. apply within_loc.
Qed.

Lemma customers_outliers_within df out : customers_outliers df = Ok out → within out df.
Proof.
  unfold customers_outliers. destruct (has "NumberOfPurshases" _).
  - cbv zeta. apply iqr_filter_within.
  - intros [= <-]. apply within_refl.
Qed.

Lemma customers_sort_carries c df out : customers_sort df = Ok out → carries c out df.
Proof.
  unfold customers_sort. destruct (has "CustomerID" _).
  - intros Hout. inv_Ok Hout. injection Hout as <-.
    eapply carries_trans; [apply carries_reset_index|]. by eapply carries_sort_values.
  - intros [= <-]. apply carries_refl.
Qed.

(** The table after steps 2 and 3. *)
Lemma customers_missing_settled df :
  let filled := customers_missing (customers_format df) in
  settled "Name" (λ v, upper_and_trim v = v) filled ∧
  settled "Region" (λ v, upper_and_trim v = v ∧ v ≠ NA) filled ∧
  settled "NumberOfPurshases" (λ v, v ≠ NA) filled ∧
  settled "ShoppingFrequency" (λ v, v ≠ NA) filled.
Proof.
  cbv zeta.
  assert (settled "Name" (λ v, upper_and_trim v = v) (customers_format df)) as Hname.
  { unfold customers_format. cbv zeta. destruct (has "Name" df) eqn:Hhas.
    - eapply settled_carries; [apply settled_assign, upper_and_trim_idemp|].
      unfold format_column_strings_to_upper_and_trim. carries_steps; apply carries_refl.
    - eapply settled_carries; [by apply (settled_absent _ _ df)|]. carries_steps; try apply carries_refl. }
  assert (settled "Region" (λ v, upper_and_trim v = v) (customers_format df)) as Hregion.
  { unfold customers_format. cbv zeta. destruct (has "Region" _) eqn:Hhas.
    - apply settled_assign, upper_and_trim_idemp.
    - by apply settled_absent. }
  split; [|split; [|split]].
  - eapply settled_carries; [exact Hname | by apply customers_missing_carries].
  - unfold customers_missing. cbv zeta.
    set (dropped := dropna _ (customers_format df)).
    assert (settled "Region" (λ v, upper_and_trim v = v) dropped) as Hdropped
      by (eapply settled_carries; [exact Hregion | apply carries_dropna]).
    destruct (has "Region" dropped) eqn:Hhas.
    + eapply settled_carries.
      * eapply (settled_assign_settled _ (fillna (Str "UNKNOWN"))); [exact Hdropped|].
        intros [|x|s|t] Hv; simpl; by repeat split.
      * carries_steps; try apply carries_refl.
    + eapply settled_carries; [by apply (settled_absent _ _ dropped)|]. carries_steps; try apply carries_refl.
  - unfold customers_missing. cbv zeta.
    set (dropped := dropna _ (customers_format df)).
    set (region := if has "Region" dropped then _ else dropped).
    destruct (has "NumberOfPurshases" region) eqn:Hhas.
    + eapply settled_carries.
      * apply (settled_assign _ (fillna (Num 0))). intros v. by apply fillna_not_NA.
      * carries_steps; try apply carries_refl.
    + eapply settled_carries; [by apply (settled_absent _ _ region)|]. carries_steps; try apply carries_refl.
  - unfold customers_missing. cbv zeta.
    set (dropped := dropna _ (customers_format df)).
    set (region := if has "Region" dropped then _ else dropped).
    set (purchases := if has "NumberOfPurshases" region then _ else region).
    destruct (has "ShoppingFrequency" purchases) eqn:Hhas.
    + apply (settled_assign _ (fillna (Num 0))). intros v. by apply fillna_not_NA.
    + by apply settled_absent.
Qed.

Lemma customers_dates_settled df :
  settled "JoinDate" (λ v, to_datetime v = v) (customers_dates df).
Proof.
  unfold customers_dates. destruct (has "JoinDate" df) eqn:Hhas.
  - apply settled_assign, to_datetime_idemp.
  - by apply settled_absent.
Qed.

Lemma customers_sort_sorted df out :
  "CustomerID" ∈ columns df → customers_sort df = Ok out → sorted_by "CustomerID" out.
Proof.
  intros Hcol%has_true. unfold customers_sort. rewrite Hcol.
  intros Hout. inv_Ok Hout. injection Hout as <-.
  by eapply sort_values_reset_index_sorted.
Qed.

Lemma customers_steps_columns unique cut :
  customers_outliers (customers_dates (customers_missing (customers_format unique))) = Ok cut →
  columns cut = columns unique.
Proof.
  intros Hcut. apply (customers_outliers_narrows "") in Hcut as [-> _].
  rewrite (proj1 (customers_dates_narrows "" _ ltac:(done))).
  rewrite (proj1 (customers_fills_narrows "" _ ltac:(done) ltac:(done) ltac:(done))).
  by rewrite (proj1 (customers_format_narrows "" _ ltac:(done) ltac:(done))).
Qed.

Lemma clean_customers_data_cleaned df out :
  clean_customers_data df = Ok out → customers_cleaned out.
Proof.
  intros Hout.
  pose proof Hout as (unique & cut & Hunique & Hcut & Hsort & _)%clean_customers_data_Ok.
  destruct (customers_missing_settled unique) as (Hname & Hregion & Hpurchases & Hfrequency).
  set (filled := customers_missing (customers_format unique)) in *.
  pose proof (customers_dates_settled filled) as Hdate.
  pose proof (customers_steps_columns _ _ Hcut) as Hcolumns.
  apply customers_outliers_within in Hcut as Hwithin.
  assert (∀ c, carries c out (customers_dates filled)) as Hrest.
  { intros c. eapply carries_trans; [by eapply customers_sort_carries|].
    by apply within_carries. }
  split.
  - eapply settled_carries; [|apply Hrest].
    eapply settled_carries; [exact Hname | by apply customers_dates_carries].
  - eapply settled_carries; [|apply Hrest].
    eapply settled_carries; [exact Hregion | by apply customers_dates_carries].
  - eapply settled_carries; [|apply Hrest].
    eapply settled_carries; [exact Hpurchases | by apply customers_dates_carries].
  - eapply settled_carries; [|apply Hrest].
    eapply settled_carries; [exact Hfrequency | by apply customers_dates_carries].
  - eapply settled_carries; [exact Hdate | apply Hrest].
  - eapply customers_sort_sorted; [|exact Hsort].
    apply drop_duplicates_key in Hunique as [Hcol _]. by rewrite Hcolumns.
Qed.

End customers_again.

(** *** Steps that leave a cleaned table as it is *)

Section steps_again.
Context `{Parsers, Quicksort}.
Implicit Types (k c : string) (df out : DataFrame).

Lemma settled_impl c (P Q : value → Prop) df :
  (∀ v, P v → Q v) → settled c P df → settled c Q df.
Proof. intros HPQ HP Hcol. eapply holds_impl; [done | by apply HP]. Qed.

Lemma within_if_assign c f df' df :
  settled c (λ v, f v = v) df → within df' df →
  within (if has c df' then assign c f df' else df') df.
Proof.
  intros Hsettled Hwithin. destruct (has c df') eqn:Hhas; [|done].
  apply within_assign; [|done]. apply Hsettled.
  rewrite (within_has _ _ _ Hwithin) in Hhas. by apply has_true.
Qed.

Lemma within_if_format c df' df :
  settled c (λ v, upper_and_trim v = v) df → within df' df →
  within (if has c df' then format_column_strings_to_upper_and_trim c df' else df') df.
Proof. apply within_if_assign. Qed.

Lemma within_if_fillna c x (P : value → Prop) df' df :
  settled c P df → (∀ v, P v → v ≠ NA) → within df' df →
  within (if has c df' then assign c (fillna x) df' else df') df.
Proof.
  intros Hsettled HP. apply within_if_assign.
  eapply settled_impl; [|done]. intros v Hv. by apply fillna_present, HP.
Qed.

Lemma key_le_trans k : Transitive (key_le k).
Proof. intros r1 r2 r3. apply value_leb_trans. Qed.

Lemma StronglySorted_sublist {A} (R : relation A) (l1 l2 : list A) :
  l1 `sublist_of` l2 → StronglySorted R l2 → StronglySorted R l1.
Proof.
  induction 1 as [|x l1 l2 Hsub IH|x l1 l2 Hsub IH]; intros Hsorted; [done|..].
  - apply StronglySorted_inv in Hsorted as [Hl2 Hx]. constructor; [by apply IH|].
    rewrite Forall_forall in Hx |- *. intros y Hy. apply Hx. by eapply elem_of_sublist.
  - apply StronglySorted_inv in Hsorted as [Hl2 _]. by apply IH.
Qed.

(** Two ascending arrangements of the same elements are equal when no two
    of the elements are equivalent in the order. *)
Lemma StronglySorted_Permutation_eq {A} (R : relation A) (l1 l2 : list A) :
  (∀ x y, x ∈ l1 → y ∈ l1 → R x y → R y x → x = y) →
  StronglySorted R l1 → StronglySorted R l2 → l1 ≡ₚ l2 → l1 = l2.
Proof.
  revert l2. induction l1 as [|x l1 IH]; intros l2 Hanti Hl1 Hl2 Hperm.
  { symmetry. by apply Permutation_nil_l in Hperm. }
  destruct l2 as [|y l2].
  { symmetry in Hperm. by apply Permutation_nil_l in Hperm. }
  apply StronglySorted_inv in Hl1 as [Hl1 Hx]. apply StronglySorted_inv in Hl2 as [Hl2 Hy].
  assert (x = y) as <-.
  { assert (x ∈ y :: l2) as Hxin by (rewrite <-Hperm; left).
    assert (y ∈ x :: l1) as Hyin by (rewrite Hperm; left).
    apply elem_of_cons in Hxin as [->|Hxin]; [done|].
    apply elem_of_cons in Hyin as [->|Hyin]; [done|].
    rewrite Forall_forall in Hx. rewrite Forall_forall in Hy.
    apply Hanti; [left | by right | by apply Hx | by apply Hy]. }
  f_equal. apply IH; [|done|done|by apply Permutation.Permutation_cons_inv in Hperm].
  intros x' y' Hx' Hy'. apply Hanti; by right.
Qed.

Lemma NoDup_fmap_eq {A B} (f : A → B) (l : list A) x y :
  NoDup (f <$> l) → x ∈ l → y ∈ l → f x = f y → x = y.
Proof.
  induction l as [|a l IH]; simpl; [by intros _ ?%elem_of_nil|].
  intros [Ha Hl]%NoDup_cons [->|Hx]%elem_of_cons [->|Hy]%elem_of_cons Hxy; [done|..].
  - exfalso. apply Ha. rewrite Hxy. by apply list_elem_of_fmap_2.
  - exfalso. apply Ha. rewrite <-Hxy. by apply list_elem_of_fmap_2.
  - by apply IH.
Qed.

(** Sorting a part of a sorted frame, then renumbering the rows, gives the
    same rows in some order.  *)
Lemma sort_values_among k df' df out :
  within df' df →
  (df_temp ← sort_values k df'; Ok (reset_index df_temp)) = Ok out →
  columns out = columns df ∧ cells <$> rows out ≡ₚ cells <$> rows df'.
Proof.
  intros [Hcols Hsub] Hout. inv_Ok Hout. injection Hout as <-.
  unfold sort_values in Hd. destruct (same_kind _); [|discriminate]. injection Hd as <-.
  simpl. split; [done|].
  rewrite (fmap_imap_ext cells cells) by done.
  apply fmap_Permutation, quicksort_Permutation.
Qed.

(** When no key repeats, the sort has one possible result: rows that are
    already in order keep their places, however the library sorts. *)
Lemma sort_values_within k df' df out :
  within df' df → sorted_by k df → NoDup (column k df') →
  (df_temp ← sort_values k df'; Ok (reset_index df_temp)) = Ok out →
  within {| columns := columns out; rows := rows df' |} df ∧
  cells <$> rows out = cells <$> rows df'.
Proof.
  intros [Hcols Hsub] Hsorted Hkeys Hout. inv_Ok Hout. injection Hout as <-.
  unfold sort_values in Hd. destruct (same_kind _); [|discriminate]. injection Hd as <-.
  simpl. split; [by split|].
  rewrite (fmap_imap_ext cells cells) by done. f_equal.
  symmetry. apply (StronglySorted_Permutation_eq (key_le k)).
  - intros r1 r2 Hr1 Hr2 H12 H21.
    apply (NoDup_fmap_eq (cell k) (rows df')); [done..|]. by apply value_leb_antisym.
  - eapply StronglySorted_sublist; [exact Hsub|].
    apply Sorted_StronglySorted; [apply key_le_trans | exact Hsorted].
  - apply Sorted_StronglySorted; [apply key_le_trans|].
    apply (quicksort_Sorted (λ r1 r2, value_leb (cell k r1) (cell k r2))).
    intros r1 r2. apply value_leb_total.
  - symmetry. apply quicksort_Permutation.
Qed.

Lemma within_NoDup k df' df : within df' df → NoDup (column k df) → NoDup (column k df').
Proof.
  intros [_ Hsub] Hkeys. apply (fmap_sublist (cell k)) in Hsub.
  by eapply sublist_NoDup.
Qed.

End steps_again.

Section customers_twice.
Context `{Parsers, Quicksort}.

Lemma clean_customers_data_again cleaned out :
  customers_cleaned cleaned → NoDup (column "CustomerID" cleaned) →
  clean_customers_data cleaned = Ok out →
  columns out = columns cleaned ∧
  (cells <$> rows out) `sublist_of` (cells <$> rows cleaned).
Proof.
  intros [Hname Hregion Hpurchases Hfrequency Hdate Hsorted] Hkeys Hout.
  pose proof Hout as (unique & cut & Hunique & Hcut & Hsort & _)%clean_customers_data_Ok.
  pose proof (customers_steps_columns _ _ Hcut) as Hcolumns.
  pose proof (drop_duplicates_key _ _ _ Hunique) as [Hcol _].
  apply within_drop_duplicates in Hunique as Hwithin.
  assert (within (customers_format unique) cleaned) as Hformat.
  { unfold customers_format. cbv zeta.
    apply within_if_format; [by eapply settled_impl; [|exact Hregion]; intros v []|].
    by apply within_if_format. }
  assert (within (customers_missing (customers_format unique)) cleaned) as Hmissing.
  { unfold customers_missing. cbv zeta.
    eapply within_if_fillna; [exact Hfrequency | done |].
    eapply within_if_fillna; [exact Hpurchases | done |].
    eapply within_if_fillna; [exact Hregion | by intros v [] |].
    eapply within_trans; [apply within_dropna | done]. }
  assert (within cut cleaned) as Hwithin_cut.
  { eapply within_trans; [by eapply customers_outliers_within|].
    unfold customers_dates. by apply within_if_assign. }
  revert Hsort. unfold customers_sort.
  rewrite (proj2 (has_true "CustomerID" cut)) by (by rewrite Hcolumns).
  intros Hsort.
  pose proof (sort_values_within _ _ _ _ Hwithin_cut Hsorted
                (within_NoDup _ _ _ Hwithin_cut Hkeys) Hsort) as [[Hcols _] Hcells].
  split; [exact Hcols|]. rewrite Hcells. apply fmap_sublist, Hwithin_cut.
Qed.

End customers_twice.

(** *** What a cleaned Product table looks like *)

Section products_again.
Context `{Parsers, Quicksort}.
Implicit Types (k c : string) (df out : DataFrame).

Lemma products_missing_carries c df out :
  c ≠ "Category" → c ≠ "Price" → products_missing df = Ok out → carries c out df.
Proof.
  intros ? ?. unfold products_missing. cbv zeta.
  destruct (has "Price" _);
    [intros Hout; inv_Ok Hout; injection Hout as <- | intros [= <-]]; carries_steps.
Qed.

Lemma products_outliers_within df out : products_outliers df = Ok out → within out df.
Proof.
  unfold products_outliers. destruct (has "Price" _).
  - cbv zeta. intros Hout%iqr_filter_within.
    eapply within_trans; [exact Hout | apply within_loc].
  - intros [= <-]. apply within_refl.
Qed.

Lemma products_sort_carries c df out : products_sort df = Ok out → carries c out df.
Proof.
  unfold products_sort. destruct (has "ProductID" _).
  - intros Hout. inv_Ok Hout. injection Hout as <-.
    eapply carries_trans; [apply carries_reset_index|]. by eapply carries_sort_values.
  - intros [= <-]. apply carries_refl.
Qed.

Lemma products_format_settled df :
  settled "ProductName" (λ v, upper_and_trim v = v) (products_format df) ∧
  settled "Category" (λ v, upper_and_trim v = v) (products_format df).
Proof.
  split.
  - unfold products_format. cbv zeta. destruct (has "ProductName" df) eqn:Hhas.
    + eapply settled_carries; [apply settled_assign, upper_and_trim_idemp|].
      unfold format_column_strings_to_upper_and_trim. carries_steps; apply carries_refl.
    + eapply settled_carries; [by apply (settled_absent _ _ df)|]. carries_steps.
  - unfold products_format. cbv zeta. destruct (has "Category" _) eqn:Hhas.
    + apply settled_assign, upper_and_trim_idemp.
    + by apply settled_absent.
Qed.

Lemma products_missing_settled df out :
  settled "ProductName" (λ v, upper_and_trim v = v) df →
  settled "Category" (λ v, upper_and_trim v = v) df →
  products_missing df = Ok out →
  settled "ProductName" (λ v, upper_and_trim v = v) out ∧
  settled "Category" (λ v, upper_and_trim v = v ∧ v ≠ NA) out ∧
  settled "Price" (λ _, True) out.
Proof.
  intros Hname Hcategory Hout. split; [|split].
  - eapply settled_carries; [exact Hname | by eapply products_missing_carries].
  - revert Hout. unfold products_missing. cbv zeta.
    set (dropped := dropna _ df).
    assert (settled "Category" (λ v, upper_and_trim v = v) dropped) as Hdropped
      by (eapply settled_carries; [exact Hcategory | apply carries_dropna]).
    set (category := if has "Category" dropped then _ else dropped).
    assert (settled "Category" (λ v, upper_and_trim v = v ∧ v ≠ NA) category) as Hfilled.
    { unfold category. destruct (has "Category" dropped) eqn:Hhas.
      - eapply (settled_assign_settled _ (fillna (Str "UNCATEGORIZED"))); [exact Hdropped|].
        intros [|x|s|t] Hv; simpl; by repeat split.
      - by apply settled_absent. }
    destruct (has "Price" category);
      [intros Hout; inv_Ok Hout; injection Hout as <- | intros [= <-]]; [|done].
    eapply settled_carries; [exact Hfilled|]. carries_steps.
  - revert Hout. unfold products_missing. cbv zeta.
    set (category := if has "Category" _ then _ else _).
    destruct (has "Price" category) eqn:Hhas;
      [intros Hout; inv_Ok Hout; injection Hout as <- | intros [= <-]].
    + by apply settled_assign.
    + by apply settled_absent.
Qed.

Lemma products_outliers_settled df out :
  settled "Price" (λ _, True) df → products_outliers df = Ok out →
  settled "Price" is_number out.
Proof.
  intros Hprice. unfold products_outliers. destruct (has "Price" df) eqn:Hhas.
  - cbv zeta. intros Hout%iqr_filter_within.
    eapply settled_within; [exact Hout|]. intros _.
    eapply holds_loc; [by apply Hprice, has_true|].
    intros r (x & Hx & _)%ge_Some. by exists x.
  - intros [= <-]. by apply settled_absent.
Qed.

Lemma products_steps_columns unique filled cut :
  products_missing (products_format unique) = Ok filled →
  products_outliers filled = Ok cut →
  columns cut = columns unique.
Proof.
  intros Hfilled Hcut. apply (products_outliers_narrows "") in Hcut as [-> _].
  apply (products_missing_narrows "" _ _ ltac:(done) ltac:(done)) in Hfilled as [-> _].
  by rewrite (proj1 (products_format_narrows "" _ ltac:(done) ltac:(done))).
Qed.

Lemma products_sort_sorted df out :
  "ProductID" ∈ columns df → products_sort df = Ok out → sorted_by "ProductID" out.
Proof.
  intros Hcol%has_true. unfold products_sort. rewrite Hcol.
  intros Hout. inv_Ok Hout. injection Hout as <-.
  by eapply sort_values_reset_index_sorted.
Qed.

Lemma clean_products_data_cleaned df out :
  clean_products_data df = Ok out → products_cleaned out.
Proof.
  intros Hout.
  pose proof Hout
    as (unique & filled & cut & Hunique & Hfilled & Hcut & Hsort & _)%clean_products_data_Ok.
  destruct (products_format_settled unique) as [Hname Hcategory].
  destruct (products_missing_settled _ _ Hname Hcategory Hfilled)
    as (Hname' & Hcategory' & Hprice).
  pose proof (products_outliers_settled _ _ Hprice Hcut) as Hprice'.
  pose proof (products_steps_columns _ _ _ Hfilled Hcut) as Hcolumns.
  apply products_outliers_within in Hcut as Hwithin.
  assert (∀ c, carries c out cut) as Hrest
    by (intros c; by eapply products_sort_carries).
  split.
  - eapply settled_carries; [|apply Hrest]. by eapply settled_within.
  - eapply settled_carries; [|apply Hrest]. by eapply settled_within.
  - eapply settled_carries; [exact Hprice' | apply Hrest].
  - eapply products_sort_sorted; [|exact Hsort].
    apply drop_duplicates_key in Hunique as [Hcol _]. by rewrite Hcolumns.
Qed.

Lemma products_missing_within df' df out :
  settled "Category" (λ v, upper_and_trim v = v ∧ v ≠ NA) df →
  settled "Price" is_number df →
  within df' df → products_missing df' = Ok out → within out df.
Proof.
  intros Hcategory Hprice Hwithin. unfold products_missing. cbv zeta.
  set (dropped := dropna _ df').
  assert (within dropped df) as Hdropped
    by (eapply within_trans; [apply within_dropna | done]).
  set (category := if has "Category" dropped then _ else dropped).
  assert (within category df) as Hfilled
    by (eapply within_if_fillna; [exact Hcategory | by intros v [] | done]).
  destruct (has "Price" category) eqn:Hhas; [|by intros [= <-]].
  intros Hout. inv_Ok Hout. injection Hout as <-.
  assert (holds "Price" is_number df) as Hnumbers.
  { apply Hprice. rewrite (within_has _ _ _ Hfilled) in Hhas. by apply has_true. }
  apply within_assign; [by eapply holds_impl; [|exact Hnumbers]; intros v [x ->]|].
  apply within_assign; [by eapply holds_impl; [|exact Hnumbers]; intros v [x ->]|].
  done.
Qed.

Lemma clean_products_data_again cleaned out :
  products_cleaned cleaned → NoDup (column "ProductID" cleaned) →
  clean_products_data cleaned = Ok out →
  columns out = columns cleaned ∧
  (cells <$> rows out) `sublist_of` (cells <$> rows cleaned).
Proof.
  intros [Hname Hcategory Hprice Hsorted] Hkeys Hout.
  pose proof Hout
    as (unique & filled & cut & Hunique & Hfilled & Hcut & Hsort & _)%clean_products_data_Ok.
  pose proof (products_steps_columns _ _ _ Hfilled Hcut) as Hcolumns.
  pose proof (drop_duplicates_key _ _ _ Hunique) as [Hcol _].
  apply within_drop_duplicates in Hunique as Hwithin.
  assert (within (products_format unique) cleaned) as Hformat.
  { unfold products_format. cbv zeta.
    apply within_if_format; [by eapply settled_impl; [|exact Hcategory]; intros v []|].
    by apply within_if_format. }
  assert (within cut cleaned) as Hwithin_cut.
  { eapply within_trans; [by eapply products_outliers_within|].
    by eapply products_missing_within. }
  revert Hsort. unfold products_sort.
  rewrite (proj2 (has_true "ProductID" cut)) by (by rewrite Hcolumns).
  intros Hsort.
  pose proof (sort_values_within _ _ _ _ Hwithin_cut Hsorted
                (within_NoDup _ _ _ Hwithin_cut Hkeys) Hsort) as [[Hcols _] Hcells].
  split; [exact Hcols|]. rewrite Hcells. apply fmap_sublist, Hwithin_cut.
Qed.

End products_again.

(** *** What a cleaned Sale table looks like *)

Section sales_again.
Context `{Parsers, Quicksort}.
Implicit Types (k c : string) (df out : DataFrame).

Lemma sales_fill_carries c df out :
  c ≠ "CampaignID" → c ≠ "Shipping" → sales_fill df = Ok out → carries c out df.
Proof.
  intros ? ?. unfold sales_fill. cbv zeta.
  destruct (has "Shipping" _);
    [intros Hout; inv_Ok Hout; injection Hout as <- | intros [= <-]]; carries_steps.
Qed.

Lemma sales_drop_critical_within df : within (sales_drop_critical df) df.
Proof. apply within_dropna. Qed.

Lemma sales_format_carries c df : c ≠ "State" → carries c (sales_format df) df.
Proof. intros. unfold sales_format. carries_steps. Qed.

Lemma sales_nonnegative_within df : within (sales_nonnegative df) df.
Proof.
  unfold sales_nonnegative. cbv zeta.
  destruct (has "Shipping" _); [eapply within_trans; [apply within_loc|]|];
    destruct (has "SaleAmount" df); try apply within_loc; apply within_refl.
Qed.

Lemma sales_outliers_within df out : sales_outliers df = Ok out → within out df.
Proof.
  unfold sales_outliers. destruct (has "SaleAmount" _).
  - intros Hout. inv_Ok Hout. destruct d as [lo hi]. injection Hout as <-. apply within_loc.
  - intros [= <-]. apply within_refl.
Qed.

Lemma sales_dates_carries c df : c ≠ "SaleDate" → carries c (sales_dates df) df.
Proof. intros. unfold sales_dates. carries_steps. Qed.

Lemma sales_sort_carries c df out : sales_sort df = Ok out → carries c out df.
Proof.
  unfold sales_sort. destruct (has "TransactionID" _).
  - intros Hout. inv_Ok Hout. injection Hout as <-.
    eapply carries_trans; [apply carries_reset_index|]. by eapply carries_sort_values.
  - intros [= <-]. apply carries_refl.
Qed.

(** After step 2. *)
Lemma sales_coerce_settled df :
  settled "SaleAmount" (λ v, to_numeric v = v) (sales_coerce df).
Proof.
  unfold sales_coerce. cbv zeta. destruct (has "SaleAmount" df) eqn:Hhas.
  - eapply settled_carries; [apply settled_assign, to_numeric_idemp|].
    carries_steps; apply carries_refl.
  - eapply settled_carries; [by apply (settled_absent _ _ df)|]. carries_steps.
Qed.

(** After the fills of step 3. *)
Lemma sales_fill_settled df out :
  sales_fill df = Ok out →
  settled "CampaignID" (λ v, v ≠ NA) out ∧ settled "Shipping" (λ _, True) out.
Proof.
  unfold sales_fill. cbv zeta.
  set (campaign := if has "CampaignID" df then _ else df).
  assert (settled "CampaignID" (λ v, v ≠ NA) campaign) as Hcampaign.
  { unfold campaign. destruct (has "CampaignID" df) eqn:Hhas.
    - apply (settled_assign _ (fillna (Num 0))). intros v. by apply fillna_not_NA.
    - by apply settled_absent. }
  destruct (has "Shipping" campaign) eqn:Hhas;
    [intros Hout; inv_Ok Hout; injection Hout as <- | intros [= <-]].
  - split; [|by apply settled_assign].
    eapply settled_carries; [exact Hcampaign|]. carries_steps.
  - split; [done | by apply settled_absent].
Qed.

(** After the [>= 0] filters of step 5. *)
Lemma sales_nonnegative_settled df :
  settled "Shipping" (λ _, True) df → settled "Shipping" is_number (sales_nonnegative df).
Proof.
  intros Hshipping. unfold sales_nonnegative. cbv zeta.
  set (amount := if has "SaleAmount" df then _ else df).
  assert (within amount df) as Hwithin.
  { unfold amount. destruct (has "SaleAmount" df); [apply within_loc | apply within_refl]. }
  destruct (has "Shipping" amount) eqn:Hhas; [|by apply settled_absent].
  intros _. eapply holds_loc.
  - eapply within_holds; [exact Hwithin|]. apply Hshipping.
    rewrite (within_has _ _ _ Hwithin) in Hhas. by apply has_true.
  - intros r (x & Hx & _)%ge_Some. by exists x.
Qed.

Lemma sales_format_settled df : settled "State" (λ v, upper_and_trim v = v) (sales_format df).
Proof.
  unfold sales_format. destruct (has "State" df) eqn:Hhas.
  - apply settled_assign, upper_and_trim_idemp.
  - by apply settled_absent.
Qed.

Lemma sales_dates_settled df : settled "SaleDate" (λ v, to_datetime v = v) (sales_dates df).
Proof.
  unfold sales_dates. destruct (has "SaleDate" df) eqn:Hhas.
  - apply settled_assign, to_datetime_idemp.
  - by apply settled_absent.
Qed.

Lemma sales_sort_sorted df out :
  sales_sort df = Ok out → "TransactionID" ∈ columns out → sorted_by "TransactionID" out.
Proof.
  unfold sales_sort. destruct (has "TransactionID" df) eqn:Hhas.
  - intros Hout _. inv_Ok Hout. injection Hout as <-.
    by eapply sort_values_reset_index_sorted.
  - intros [= <-] Hcol%has_true. congruence.
Qed.

Lemma clean_sales_data_cleaned df out : clean_sales_data df = Ok out → sales_cleaned out.
Proof.
  intros Hout.
  pose proof Hout as (filled & cut & Hfill & Hcut & Hsort & _)%clean_sales_data_Ok.
  set (deduplicated := sales_remove_duplicates df) in *.
  pose proof (sales_coerce_settled deduplicated) as Hamount.
  destruct (sales_fill_settled _ _ Hfill) as [Hcampaign Hshipping].
  set (dropped := sales_drop_critical filled) in *.
  pose proof (sales_drop_critical_within filled) as Hdropped. fold dropped in Hdropped.
  pose proof (sales_format_settled dropped) as Hstate.
  set (formatted := sales_format dropped) in *.
  assert (settled "Shipping" (λ _, True) formatted) as Hshipping'.
  { eapply settled_carries; [|by apply sales_format_carries].
    by eapply settled_within. }
  apply sales_nonnegative_settled in Hshipping'.
  pose proof (sales_nonnegative_within formatted) as Hkept.
  set (kept := sales_nonnegative formatted) in *.
  apply sales_outliers_within in Hcut as Hwithin_cut.
  pose proof (sales_dates_settled cut) as Hdate.
  assert (∀ c, c ≠ "SaleDate" → carries c out kept) as Hrest.
  { intros c Hc. eapply carries_trans; [by eapply sales_sort_carries|].
    eapply carries_trans; [by apply sales_dates_carries|]. by apply within_carries. }
  assert (∀ c, c ≠ "SaleDate" → c ≠ "State" → carries c out dropped) as Hrest'.
  { intros c Hc Hc'. eapply carries_trans; [by apply Hrest|].
    eapply carries_trans; [by apply within_carries|]. by apply sales_format_carries. }
  split.
  - eapply settled_carries; [|by apply Hrest'].
    eapply settled_within; [exact Hdropped|].
    eapply settled_carries; [exact Hamount | by eapply sales_fill_carries].
  - eapply settled_carries; [exact Hshipping' | by apply Hrest].
  - eapply settled_carries; [|by apply Hrest']. by eapply settled_within.
  - eapply settled_carries; [|by apply Hrest]. by eapply settled_within.
  - eapply settled_carries; [exact Hdate | by eapply sales_sort_carries].
  - by eapply sales_sort_sorted.
Qed.

Lemma sales_coerce_within df' df :
  settled "SaleAmount" (λ v, to_numeric v = v) df → settled "Shipping" is_number df →
  within df' df → within (sales_coerce df') df.
Proof.
  intros Hamount Hshipping Hwithin. unfold sales_coerce. cbv zeta.
  set (amount := if has "SaleAmount" df' then _ else df').
  assert (within amount df) as Hamount' by by apply within_if_assign.
  destruct (has "Shipping" amount) eqn:Hhas; [|done].
  assert (holds "Shipping" is_number df) as Hnumbers.
  { apply Hshipping. rewrite (within_has _ _ _ Hamount') in Hhas. by apply has_true. }
  apply within_assign; [by eapply holds_impl; [|exact Hnumbers]; intros v [x ->]|].
  apply within_assign; [by eapply holds_impl; [|exact Hnumbers]; intros v [x ->]|].
  done.
Qed.

Lemma sales_fill_within df' df out :
  settled "CampaignID" (λ v, v ≠ NA) df → settled "Shipping" is_number df →
  within df' df → sales_fill df' = Ok out → within out df.
Proof.
  intros Hcampaign Hshipping Hwithin. unfold sales_fill. cbv zeta.
  set (campaign := if has "CampaignID" df' then _ else df').
  assert (within campaign df) as Hcampaign'
    by (eapply within_if_fillna; [exact Hcampaign | done | done]).
  destruct (has "Shipping" campaign) eqn:Hhas; [|by intros [= <-]].
  intros Hout. inv_Ok Hout. injection Hout as <-.
  assert (holds "Shipping" is_number df) as Hnumbers.
  { apply Hshipping. rewrite (within_has _ _ _ Hcampaign') in Hhas. by apply has_true. }
  apply within_assign; [by eapply holds_impl; [|exact Hnumbers]; intros v [x ->]|].
  done.
Qed.

(** Before its sort, the second run has only removed rows. *)
Lemma clean_sales_data_again_within cleaned out :
  sales_cleaned cleaned → clean_sales_data cleaned = Ok out →
  ∃ cut, within (sales_dates cut) cleaned ∧ sales_sort (sales_dates cut) = Ok out.
Proof.
  intros [Hamount Hshipping Hcampaign Hstate Hdate Hsorted] Hout.
  pose proof Hout as (filled & cut & Hfill & Hcut & Hsort & _)%clean_sales_data_Ok.
  assert (within filled cleaned) as Hfilled.
  { eapply sales_fill_within; [done | done | | exact Hfill].
    apply sales_coerce_within; [done | done |]. apply within_remove_duplicate_records. }
  exists cut. split; [|done].
  unfold sales_dates. apply within_if_assign; [done|].
  eapply within_trans; [by eapply sales_outliers_within|].
  eapply within_trans; [apply sales_nonnegative_within|].
  unfold sales_format. apply within_if_format; [done|].
  eapply within_trans; [apply sales_drop_critical_within | done].
Qed.

(** Whatever the sort does with equal TransactionIDs, the rows of the second
    run are rows of the table it was given. *)
Lemma clean_sales_data_again_among cleaned out :
  sales_cleaned cleaned → clean_sales_data cleaned = Ok out →
  columns out = columns cleaned ∧
  (cells <$> rows out) ⊆+ (cells <$> rows cleaned).
Proof.
  intros Hcleaned Hout.
  destruct (clean_sales_data_again_within _ _ Hcleaned Hout) as (cut & Hdated & Hsort).
  revert Hsort. unfold sales_sort.
  destruct (has "TransactionID" (sales_dates cut)) eqn:Hhas.
  - intros Hsort.
    destruct (sort_values_among _ _ _ _ Hdated Hsort) as [Hcols Hcells].
    split; [exact Hcols|]. rewrite Hcells. apply sublist_submseteq, fmap_sublist, Hdated.
  - intros [= <-]. split; [apply Hdated | apply sublist_submseteq, fmap_sublist, Hdated].
Qed.

Lemma clean_sales_data_again cleaned out :
  sales_cleaned cleaned →
  ("TransactionID" ∈ columns cleaned → NoDup (column "TransactionID" cleaned)) →
  clean_sales_data cleaned = Ok out →
  columns out = columns cleaned ∧
  (cells <$> rows out) `sublist_of` (cells <$> rows cleaned).
Proof.
  intros [Hamount Hshipping Hcampaign Hstate Hdate Hsorted] Hkeys Hout.
  pose proof Hout as (filled & cut & Hfill & Hcut & Hsort & _)%clean_sales_data_Ok.
  assert (within filled cleaned) as Hfilled.
  { eapply sales_fill_within; [done | done | | exact Hfill].
    apply sales_coerce_within; [done | done |]. apply within_remove_duplicate_records. }
  assert (within (sales_dates cut) cleaned) as Hdated.
  { unfold sales_dates. apply within_if_assign; [done|].
    eapply within_trans; [by eapply sales_outliers_within|].
    eapply within_trans; [apply sales_nonnegative_within|].
    unfold sales_format. apply within_if_format; [done|].
    eapply within_trans; [apply sales_drop_critical_within | done]. }
  revert Hsort. unfold sales_sort.
  destruct (has "TransactionID" (sales_dates cut)) eqn:Hhas.
  - intros Hsort.
    assert ("TransactionID" ∈ columns cleaned) as Hcol.
    { rewrite (within_has _ _ _ Hdated) in Hhas. by apply has_true. }
    pose proof (sort_values_within _ _ _ _ Hdated (Hsorted Hcol)
                  (within_NoDup _ _ _ Hdated (Hkeys Hcol)) Hsort) as [[Hcols _] Hcells].
    split; [exact Hcols|]. rewrite Hcells. apply fmap_sublist, Hdated.
  - intros [= <-]. split; [apply Hdated | apply fmap_sublist, Hdated].
Qed.

End sales_again.

Section recleaning.
Context `{Parsers, Quicksort}.

Lemma kept_by_recleaning_intro cleaned again :
  columns again = columns cleaned →
  (cells <$> rows again) `sublist_of` (cells <$> rows cleaned) →
  kept_by_recleaning cleaned again.
Proof.
  intros Hcols Hcells. split; [done|]. split; [done|]. split.
  - apply sublist_length in Hcells. by rewrite !length_fmap in Hcells.
  - intros c. apply (fmap_sublist (λ m, default NA (m !! c))) in Hcells.
    by rewrite <-!list_fmap_compose in Hcells.
Qed.

Lemma kept_in_some_order_intro cleaned again :
  columns again = columns cleaned →
  (cells <$> rows again) ⊆+ (cells <$> rows cleaned) →
  kept_in_some_order cleaned again.
Proof.
  intros Hcols Hcells. split; [done|]. split; [done|]. split.
  - apply submseteq_length in Hcells. by rewrite !length_fmap in Hcells.
  - intros c. apply (fmap_submseteq (λ m, default NA (m !! c))) in Hcells.
    by rewrite <-!list_fmap_compose in Hcells.
Qed.

End recleaning.

(** C4: when a cleaner is run on a table that it returned, and returns again,
    the second table has the same columns, its rows are rows of the first,
    cell for cell, and it is again sorted by the key.  So the row count does
    not grow and no cell becomes null.  For Customers and Products the rows
    that stay keep their order; so do the Sales rows when no TransactionID
    repeats, or when the table has no TransactionID column.  The sort is the
    library's quicksort, which is not stable: of Sales rows that share a
    TransactionID only this is known, that they stay together.  Rows can be
    removed: the IQR bounds are computed again from the cleaned values. *)
Theorem recleaning_keeps_rows `{Parsers, Quicksort} :
  (∀ df cleaned again,
     clean_sales_data df = Ok cleaned → clean_sales_data cleaned = Ok again →
     kept_in_some_order cleaned again ∧
     ("TransactionID" ∈ columns cleaned → sorted_by "TransactionID" again) ∧
     (("TransactionID" ∈ columns cleaned → NoDup (column "TransactionID" cleaned)) →
      kept_by_recleaning cleaned again)) ∧
  (∀ df cleaned again,
     clean_customers_data df = Ok cleaned → clean_customers_data cleaned = Ok again →
     kept_by_recleaning cleaned again ∧ sorted_by "CustomerID" again) ∧
  (∀ df cleaned again,
     clean_products_data df = Ok cleaned → clean_products_data cleaned = Ok again →
     kept_by_recleaning cleaned again ∧ sorted_by "ProductID" again).
Proof.
  split; [|split]; intros df cleaned again Hfirst Hsecond.
  - apply clean_sales_data_cleaned in Hfirst.
    destruct (clean_sales_data_again_among _ _ Hfirst Hsecond) as [Hcols Hcells].
    split; [by apply kept_in_some_order_intro|]. split.
    + intros Hcol. apply (sales_sorted _ (clean_sales_data_cleaned _ _ Hsecond)).
      by rewrite Hcols.
    + intros Hkeys. destruct (clean_sales_data_again _ _ Hfirst Hkeys Hsecond).
      by apply kept_by_recleaning_intro.
  - destruct (clean_customers_data_key _ _ Hfirst) as (_ & Hkeys & _).
    apply clean_customers_data_cleaned in Hfirst.
    destruct (clean_customers_data_again _ _ Hfirst Hkeys Hsecond).
    split; [by apply kept_by_recleaning_intro|].
    apply (customers_sorted _ (clean_customers_data_cleaned _ _ Hsecond)).
  - destruct (clean_products_data_key _ _ Hfirst) as (_ & Hkeys & _).
    apply clean_products_data_cleaned in Hfirst.
    destruct (clean_products_data_again _ _ Hfirst Hkeys Hsecond).
    split; [by apply kept_by_recleaning_intro|].
    apply (products_sorted _ (clean_products_data_cleaned _ _ Hsecond)).
Qed.

Section recleaning_examples.
Import Fixtures.

Lemma recleaning_keeps_rows_witness :
  (kept_in_some_order sales_prepared sales_prepared_again ∧
   sorted_by "TransactionID" sales_prepared_again ∧
   kept_by_recleaning sales_prepared sales_prepared_again) ∧
  (kept_by_recleaning customers_prepared customers_prepared_again ∧
   sorted_by "CustomerID" customers_prepared_again) ∧
  (kept_by_recleaning products_prepared products_prepared ∧
   sorted_by "ProductID" products_prepared).
Proof.
  destruct (recleaning_keeps_rows (H := parsers)) as (Hsales & Hcustomers & Hproducts).
  split; [|split].
  - destruct (Hsales sales_raw sales_prepared sales_prepared_again)
      as (Hamong & Hsorted & Hkept); [compute_done..|].
    split; [done|]. split; [apply Hsorted | apply Hkept; intros _]; compute_done.
  - apply (Hcustomers customers_raw); compute_done.
  - apply (Hproducts products_raw); compute_done.
Defined.

(** Purchases 10, 10, 10, 12 and 100: the first run has the bounds [7, 15]
    and removes 100; the second run, on 10, 10, 10 and 12, has the quartiles
    10 and 10.5, the bounds [9.25, 11.25], and removes 12. *)
Lemma clean_customers_data_again_removes_row :
  clean_customers_data customers_raw = Ok customers_prepared ∧
  clean_customers_data customers_prepared = Ok customers_prepared_again ∧
  column "NumberOfPurshases" customers_prepared = [int 10; int 10; int 10; int 12] ∧
  column "NumberOfPurshases" customers_prepared_again = [int 10; int 10; int 10] ∧
  length (rows customers_prepared) = 4%nat ∧
  length (rows customers_prepared_again) = 3%nat.
Proof. compute_done. Qed.

(** A cleaned table with no row cannot be cleaned again: the percentage of
    rows removed divides by the number of rows it was given. *)
Lemma clean_customers_data_no_rows :
  clean_customers_data (frame customers_columns []) = Raise ZeroDivisionError.
Proof. compute_done. Qed.

End recleaning_examples.
